(** * A shallow embedding of the QCS mock simulator (fase1_qcs_simulador)

    Python floats (float64) are modelled by the real numbers of the
    Standard Library; numpy arrays by lists of reals.  Python exceptions are
    modelled by an error monad [result]. *)

From Stdlib Require Import Reals Lra Lia List String Bool ZArith Sorted.
Import ListNotations.
Open Scope R_scope.
#[local] Set Warnings "-register-all".

(** ** Python exceptions and the error monad *)

Inductive exn : Type :=
  | ValueError
  | TypeError
  | IndexError
  | KeyError
  | AttributeError
  | NotImplementedError.

Inductive result (A : Type) : Type :=
  | Ok : A -> result A
  | Err : exn -> result A.
Arguments Ok {A} _.
Arguments Err {A} _.

Definition bind {A B} (m : result A) (k : A -> result B) : result B :=
  match m with
  | Ok a => k a
  | Err e => Err e
  end.

Notation "x <- m ;; k" := (bind m (fun x => k))
  (at level 61, m at next level, right associativity).

(** ** Python values held in parameter mappings (YAML scalars and sequences) *)

Inductive PyVal : Type :=
  | PyFloat (r : R)
  | PyList (l : list PyVal)
  | PyTuple (l : list PyVal)
  | PyNone.

(** [float(v)] *)
Definition py_float (v : PyVal) : result R :=
  match v with
  | PyFloat r => Ok r
  | _ => Err TypeError
  end.

(** A Python dict with string keys, in insertion order. *)
Definition pydict (V : Type) := list (string * V).

Fixpoint dict_get {V} (d : pydict V) (k : string) : option V :=
  match d with
  | [] => None
  | (k', v) :: d' => if String.eqb k k' then Some v else dict_get d' k
  end.

(** [d[k] = v]: an existing key keeps its position. *)
Fixpoint dict_set {V} (d : pydict V) (k : string) (v : V) : pydict V :=
  match d with
  | [] => [(k, v)]
  | (k', v') :: d' =>
      if String.eqb k k' then (k', v) :: d' else (k', v') :: dict_set d' k v
  end.

(** ** Operations (qcs_api_mock.py, dataclasses) *)

Record PulseOperation : Type := mkPulse {
  channel_path : string;
  duration : R;        (* default 40e-9 *)
  amplitude : R;       (* default 0.0 *)
  frequency : R;       (* default 0.0 *)
  phase : R;           (* default 0.0 *)
  shape : string       (* default 'gaussian' *)
}.

Inductive Operation : Type :=
  | OpPulse (p : PulseOperation)
  | OpDelay (duration : R)
  | OpMeasure (channel_path : string) (integration_time : R).

(** ** utils/converter.py: pulse_to_waveform *)

(** Python [int(x)] on a float: truncation toward zero. *)
Definition py_int (x : R) : Z :=
  if Rle_dec 0 x then Int_part x else (- Int_part (- x))%Z.

(** [np.linspace(0, stop, num, endpoint=False)]: [i * (stop / num)]. *)
Definition linspace_open (stop : R) (num : nat) : list R :=
  map (fun i => INR i * (stop / INR num)) (seq 0 num).

(** A division that records its divisor, so the divisions performed by the
    gaussian branch can be inspected (numpy yields nan/inf on a zero divisor). *)
Definition div_w (x y : R) : R * list R := (x / y, [y]).

Fixpoint gaussian_samples (amp center sigma : R) (t : list R) : list R * list R :=
  match t with
  | [] => ([], [])
  | ti :: t' =>
      let '(q, d1) := div_w (ti - center) sigma in
      let '(rest, d2) := gaussian_samples amp center sigma t' in
      (amp * exp (-0.5 * q ^ 2) :: rest, d1 ++ d2)
  end.

(** The gaussian branch: [sigma = duration / 4], [center = duration / 2],
    [envelope = amplitude * exp(-0.5 * ((t - center) / sigma)**2)].
    Returns the envelope and the divisors used. *)
Definition gaussian_branch (op : PulseOperation) (t : list R) : list R * list R :=
  let '(sigma, d1) := div_w (duration op) 4 in
  let '(center, d2) := div_w (duration op) 2 in
  let '(env, d3) := gaussian_samples (amplitude op) center sigma t in
  (env, d1 ++ d2 ++ d3).

Definition pulse_to_waveform_rate (op : PulseOperation) (sample_rate : R)
  : list R * list R :=
  let n_points := Z.to_nat (Z.max (py_int (duration op * sample_rate)) 2) in
  let t := linspace_open (duration op) n_points in
  let envelope :=
    if String.eqb (shape op) "gaussian" then fst (gaussian_branch op t)
    else if String.eqb (shape op) "square" then repeat (amplitude op) n_points
    else repeat 0 n_points in
  (t, envelope).

Definition default_sample_rate : R := 1e9.

Definition pulse_to_waveform (op : PulseOperation) : list R * list R :=
  pulse_to_waveform_rate op default_sample_rate.

(** The number of samples, as computed by [pulse_to_waveform]. *)
Definition n_points_of (op : PulseOperation) (sample_rate : R) : nat :=
  Z.to_nat (Z.max (py_int (duration op * sample_rate)) 2).

(** ** physics_simulator.py: simulate_qubit_evolution *)

(** [np.interp(x, xp, fp)] on an increasing grid: clamped to [fp[0]] left of
    the grid and to [fp[-1]] right of it, piecewise linear in between. *)
Fixpoint interp_aux (x x0 y0 : R) (xp fp : list R) : R :=
  match xp, fp with
  | x1 :: xs, y1 :: ys =>
      if Rlt_dec x x1 then y0 + (x - x0) * ((y1 - y0) / (x1 - x0))
      else interp_aux x x1 y1 xs ys
  | _, _ => y0
  end.

(** The value [np.interp] computes on a nonempty grid. *)
Definition interp_grid (x : R) (xp fp : list R) : R :=
  match xp, fp with
  | x0 :: xs, y0 :: ys => if Rle_dec x x0 then y0 else interp_aux x x0 y0 xs ys
  | _, _ => 0
  end.

(** [np.interp(x, xp, fp)]: [ValueError] when [xp] and [fp] differ in length
    or the grid is empty. *)
Definition np_interp (x : R) (xp fp : list R) : result R :=
  if negb (Nat.eqb (List.length xp) (List.length fp)) then Err ValueError
  else
    match xp with
    | [] => Err ValueError
    | _ :: _ => Ok (interp_grid x xp fp)
    end.

Definition VOLT_TO_RABI_HERTZ : R := 25e6.

(** [qubit_params.get('frequency', 5.0e9)], then [float(v[0])] for a list or
    tuple and [float(v)] otherwise. *)
Definition parse_frequency (qubit_params : pydict PyVal) : result R :=
  let v := match dict_get qubit_params "frequency" with
           | Some v => v
           | None => PyFloat 5.0e9
           end in
  match v with
  | PyList l | PyTuple l =>
      match l with
      | [] => Err IndexError
      | x :: _ => py_float x
      end
  | _ => py_float v
  end.

(** [xs[-1]] *)
Definition py_last (xs : list R) : result R :=
  match xs with
  | [] => Err IndexError
  | x :: _ => Ok (last xs x)
  end.

Section Simulator.

(** [qt.mesolve(H, psi0, t_list, c_ops=[], e_ops=[P1]).expect[0]] for
    [H = [[0.5 * sigmax, envelope_func]]] and [psi0 = basis(2, 0)]: the
    external solver, given the drive coefficient and the time list; it yields
    one expectation value per time point.  [qt.mesolve] calls
    [envelope_func] once at [t = 0] while it builds the time-dependent
    Hamiltonian, so an exception of [np.interp] is raised there; past that
    call the grid is nonempty, [np.interp] returns [interp_grid] at every time
    ([np_interp_ok]), and the solver is given that total coefficient. *)
Variable mesolve_expect : (R -> R) -> list R -> list R.

Definition simulate_qubit_evolution (pulse_envelope t_list : list R)
    (qubit_params : pydict PyVal) : result R :=
  _qubit_freq <- parse_frequency qubit_params ;;
  let rabi_freq_envelope := map (fun a => a * VOLT_TO_RABI_HERTZ) pulse_envelope in
  let angular_freq_envelope := map (fun w => 2 * PI * w) rabi_freq_envelope in
  if negb (Nat.eqb (List.length t_list) (List.length angular_freq_envelope))
  then Err ValueError
  else
    let envelope_func := fun t => np_interp t t_list angular_freq_envelope in
    _ <- envelope_func 0 ;;
    py_last (mesolve_expect (fun t => interp_grid t t_list angular_freq_envelope)
               t_list).

End Simulator.

(** *** The solver for this Hamiltonian

    Modelled from the spec: [qutip.mesolve] (external library), pure unitary
    evolution without collapse operators, solved exactly.  All the operators
    [H(t) = f(t) * sigmax / 2] commute, so on a step [t0 -> t1] the state is
    rotated by [exp(-i * theta * sigmax / 2)], with [theta] the integral of
    [f] over the step; [f] is piecewise linear between the grid points, so the
    integral is the trapezoid [(t1 - t0) * (f t0 + f t1) / 2].
    A state is [(a, b) = (ar + i ai, br + i bi)] in the basis [|0>, |1>]. *)
Record qstate : Type := mkQ { q_ar : R; q_ai : R; q_br : R; q_bi : R }.

Definition ground : qstate := mkQ 1 0 0 0.

(** [<psi| P1 |psi> = |b|^2] *)
Definition excited_pop (s : qstate) : R := q_br s ^ 2 + q_bi s ^ 2.

(** [(cos(theta/2) I - i sin(theta/2) sigmax) (a, b)] *)
Definition rotate_x (theta : R) (s : qstate) : qstate :=
  let c := cos (theta / 2) in
  let sn := sin (theta / 2) in
  mkQ (c * q_ar s + sn * q_bi s) (c * q_ai s - sn * q_br s)
      (c * q_br s + sn * q_ai s) (c * q_bi s - sn * q_ar s).

Fixpoint evolve (f : R -> R) (t0 : R) (ts : list R) (s : qstate) : list R :=
  match ts with
  | [] => []
  | t1 :: ts' =>
      let s' := rotate_x ((t1 - t0) * (f t0 + f t1) / 2) s in
      excited_pop s' :: evolve f t1 ts' s'
  end.

Definition mesolve_exact (f : R -> R) (t_list : list R) : list R :=
  match t_list with
  | [] => []
  | t0 :: ts => excited_pop ground :: evolve f t0 ts ground
  end.

(** ** qcs_api_mock.py: channels, devices and the System object graph

    Objects live in a heap (a list indexed by locations); a Python reference
    is a location, so two attributes hold the identical object exactly when
    they hold the same location. *)

Definition loc := nat.

Inductive ChannelKind : Type :=
  | KXYChannel
  | KZChannel
  | KReadoutChannel (integration_time : PyVal).

Record Channel : Type := mkChannel { ch_kind : ChannelKind; ch_path : string }.

Record TunableQubit : Type := mkQubit {
  tq_name : string;
  tq_parameters : pydict PyVal;
  tq_xy : loc;
  tq_z : loc;
  tq_readout : option loc     (* None until linked by the System *)
}.

Record ReadoutResonator : Type := mkResonator {
  rr_name : string;
  rr_parameters : pydict PyVal;
  rr_drive : loc;
  rr_measure_channel : loc
}.

Inductive Obj : Type :=
  | OChannel (c : Channel)
  | OQubit (q : TunableQubit)
  | OResonator (r : ReadoutResonator).

Definition heap := list Obj.

Definition alloc (h : heap) (o : Obj) : loc * heap := (List.length h, h ++ [o]).

Fixpoint heap_set (h : heap) (l : loc) (o : Obj) : heap :=
  match h, l with
  | [], _ => []
  | _ :: h', O => o :: h'
  | o' :: h', S l' => o' :: heap_set h' l' o
  end.

(** One entry of [config['quantum_devices']]; [None] is an absent key. *)
Record DeviceConfig : Type := mkDeviceConfig {
  cfg_type : option string;
  cfg_parameters : option (pydict PyVal);
  cfg_channels : option (pydict string)
}.

(** [system_config.get('parameters', {})] *)
Definition get_parameters (c : DeviceConfig) : pydict PyVal :=
  match cfg_parameters c with Some p => p | None => [] end.

(** [TunableQubit(name, system_config)]: allocates its XY and Z channels. *)
Definition new_TunableQubit (h : heap) (name : string) (c : DeviceConfig)
  : loc * heap :=
  let '(lxy, h1) := alloc h (OChannel (mkChannel KXYChannel (name ++ ".xy"))) in
  let '(lz, h2) := alloc h1 (OChannel (mkChannel KZChannel (name ++ ".z"))) in
  alloc h2 (OQubit (mkQubit name (get_parameters c) lxy lz None)).

(** [ReadoutResonator(name, system_config)]: allocates its drive channel and
    its measure channel, with [parameters.get('integration_time', 1e-6)]. *)
Definition new_ReadoutResonator (h : heap) (name : string) (c : DeviceConfig)
  : loc * heap :=
  let params := get_parameters c in
  let itime := match dict_get params "integration_time" with
               | Some v => v
               | None => PyFloat 1e-6
               end in
  let '(ld, h1) := alloc h (OChannel (mkChannel KXYChannel (name ++ ".drive"))) in
  let '(lm, h2) := alloc h1
      (OChannel (mkChannel (KReadoutChannel itime) (name ++ ".measure"))) in
  alloc h2 (OResonator (mkResonator name params ld lm)).

Record System : Type := mkSystem {
  sys_config : pydict DeviceConfig;      (* config['quantum_devices'] *)
  sys_heap : heap;
  quantum_devices : pydict loc
}.

(** First loop of [_load_devices]: [device_map.get(config['type'])]. *)
Fixpoint instantiate_devices (h : heap) (qd : pydict loc)
    (items : pydict DeviceConfig) : result (heap * pydict loc) :=
  match items with
  | [] => Ok (h, qd)
  | (name, c) :: items' =>
      match cfg_type c with
      | None => Err KeyError
      | Some ty =>
          if String.eqb ty "TunableQubit" then
            let '(l, h') := new_TunableQubit h name c in
            instantiate_devices h' (dict_set qd name l) items'
          else if String.eqb ty "ReadoutResonator" then
            let '(l, h') := new_ReadoutResonator h name c in
            instantiate_devices h' (dict_set qd name l) items'
          else instantiate_devices h qd items'
      end
  end.

(** [self.config['quantum_devices'][name]['channels']['readout']] *)
Definition config_readout (cfg : pydict DeviceConfig) (name : string)
  : result string :=
  match dict_get cfg name with
  | None => Err KeyError
  | Some c =>
      match cfg_channels c with
      | None => Err KeyError
      | Some ch =>
          match dict_get ch "readout" with
          | None => Err KeyError
          | Some r => Ok r
          end
      end
  end.

(** Second loop of [_load_devices], over [self.quantum_devices.values()]. *)
Fixpoint link_readouts (cfg : pydict DeviceConfig) (qd : pydict loc)
    (h : heap) (devices : list loc) : result heap :=
  match devices with
  | [] => Ok h
  | l :: devices' =>
      match nth_error h l with
      | Some (OQubit q) =>
          readout_name <- config_readout cfg (tq_name q) ;;
          match dict_get qd readout_name with
          | None => link_readouts cfg qd h devices'
          | Some lr =>
              match nth_error h lr with
              | Some (OResonator r) =>
                  let q' := mkQubit (tq_name q) (tq_parameters q) (tq_xy q)
                              (tq_z q) (Some (rr_measure_channel r)) in
                  link_readouts cfg qd (heap_set h l (OQubit q')) devices'
              | _ => Err AttributeError     (* resonator.measure_channel *)
              end
          end
      | _ => link_readouts cfg qd h devices'
      end
  end.

(** [System.__init__] after the YAML load: [cfg] is
    [config.get('quantum_devices', {})]. *)
Definition load_devices (cfg : pydict DeviceConfig) : result System :=
  hq <- instantiate_devices [] [] cfg ;;
  let '(h, qd) := hq in
  h' <- link_readouts cfg qd h (map snd qd) ;;
  Ok (mkSystem cfg h' qd).

(** [get_instances(TunableQubit)] *)
Fixpoint qubits_of (h : heap) (ls : list loc) : list TunableQubit :=
  match ls with
  | [] => []
  | l :: ls' =>
      match nth_error h l with
      | Some (OQubit q) => q :: qubits_of h ls'
      | _ => qubits_of h ls'
      end
  end.

Definition get_qubit_instances (s : System) : list TunableQubit :=
  qubits_of (sys_heap s) (map snd (quantum_devices s)).

(** ** SequenceBuilder and Experiment

    The builder's state is its [operations] list; user code that fills a
    builder is a computation in the builder monad. *)

Definition Builder (A : Type) : Type := list Operation -> result (A * list Operation).

Definition builder_ret {A} (a : A) : Builder A := fun ops => Ok (a, ops).

Definition builder_bind {A B} (m : Builder A) (k : A -> Builder B) : Builder B :=
  fun ops =>
    match m ops with
    | Ok (a, ops') => k a ops'
    | Err e => Err e
    end.

(** [SequenceBuilder.append] *)
Definition append (operation : Operation) : Builder unit :=
  fun ops => Ok (tt, ops ++ [operation]).

(** [SequenceBuilder.delay] *)
Definition delay (d : R) : Builder unit :=
  fun ops => Ok (tt, ops ++ [OpDelay d]).

(** [Experiment.run(backend, **kwargs)]: [make_sequence] is the experiment's
    sequence generation applied to the keyword arguments, [execute] is
    [backend.execute]. *)
Definition run {A} (make_sequence : Builder unit)
    (execute : list Operation -> result A) : result A :=
  let builder := [] in
  match make_sequence builder with
  | Ok (_, operations) => execute operations
  | Err e => Err e
  end.

(** [Experiment.make_sequence] of the base class. *)
Definition base_make_sequence : Builder unit := fun _ => Err NotImplementedError.

(** ** rabi_simulation.py: QuTiPSimulationBackend.execute *)

(** Python [sub in s] on strings. *)
Fixpoint str_in (sub s : string) : bool :=
  String.prefix sub s ||
  match s with
  | EmptyString => false
  | String _ s' => str_in sub s'
  end.

(** [next((op for op in operations if isinstance(op, PulseOperation)
    and 'xy' in op.channel_path), None)] *)
Fixpoint first_xy_pulse (operations : list Operation) : option PulseOperation :=
  match operations with
  | [] => None
  | OpPulse p :: ops' =>
      if str_in "xy" (channel_path p) then Some p else first_xy_pulse ops'
  | _ :: ops' => first_xy_pulse ops'
  end.

Section Backend.

Variable mesolve_expect : (R -> R) -> list R -> list R.

(** [self.experiment.system] is [system]. *)
Definition sim_execute (system : System) (operations : list Operation) : result R :=
  match first_xy_pulse operations with
  | None => Ok 0
  | Some control_pulse_op =>
      let '(t_list, envelope) := pulse_to_waveform control_pulse_op in
      match get_qubit_instances system with
      | [] => Err IndexError
      | qubit :: _ =>
          simulate_qubit_evolution mesolve_expect envelope t_list
            (tq_parameters qubit)
      end
  end.

End Backend.

(** ** Claim vocabulary *)

(** A call made on a [SequenceBuilder] by experiment code. *)
Inductive BuilderCall : Type :=
  | CallAppend (operation : Operation)
  | CallDelay (d : R).

Fixpoint run_calls (cs : list BuilderCall) : Builder unit :=
  match cs with
  | [] => builder_ret tt
  | CallAppend op :: cs' => builder_bind (append op) (fun _ => run_calls cs')
  | CallDelay d :: cs' => builder_bind (delay d) (fun _ => run_calls cs')
  end.

(** The operation a call is meant to contribute. *)
Definition call_operation (c : BuilderCall) : Operation :=
  match c with
  | CallAppend op => op
  | CallDelay d => OpDelay d
  end.

(** A channel path names an XY channel: it contains "xy". *)
Definition identifies_xy (path : string) : Prop :=
  exists pre suf, path = (pre ++ "xy" ++ suf)%string.

(** A [frequency] entry [float()] accepts: a float, or a nonempty list or
    tuple of floats. *)
Definition is_float (v : PyVal) : Prop := exists r, v = PyFloat r.

Definition float_entry (v : PyVal) : Prop :=
  is_float v \/
  exists l, (v = PyList l \/ v = PyTuple l) /\ l <> [] /\ Forall is_float l.

(** Well-formed qubit parameters: the [frequency] entry, when present, is a
    [float_entry]. *)
Definition params_well_formed (p : pydict PyVal) : Prop :=
  match dict_get p "frequency" with
  | None => True
  | Some v => float_entry v
  end.

(** The state reached at the last time point by [mesolve_exact]. *)
Fixpoint final_state (f : R -> R) (t0 : R) (ts : list R) (s : qstate) : qstate :=
  match ts with
  | [] => s
  | t1 :: ts' => final_state f t1 ts' (rotate_x ((t1 - t0) * (f t0 + f t1) / 2) s)
  end.

(** The drive coefficient [simulate_qubit_evolution] hands to the solver. *)
Definition drive_of (pulse_envelope t_list : list R) : R -> R :=
  fun t => interp_grid t t_list
    (map (fun w => 2 * PI * w)
       (map (fun a => a * VOLT_TO_RABI_HERTZ) pulse_envelope)).

Definition norm2 (s : qstate) : R :=
  q_ar s ^ 2 + q_ai s ^ 2 + q_br s ^ 2 + q_bi s ^ 2.

(** Invariants of [_load_devices], used in the proofs about the graph. *)

(** Two versions of an object that may differ only in a qubit's [readout]. *)
Definition same_except_readout (o1 o2 : Obj) : Prop :=
  match o1, o2 with
  | OQubit q1, OQubit q2 =>
      tq_name q1 = tq_name q2 /\ tq_parameters q1 = tq_parameters q2 /\
      tq_xy q1 = tq_xy q2 /\ tq_z q1 = tq_z q2
  | _, _ => o1 = o2
  end.

Definition heap_agree (h1 h2 : heap) : Prop :=
  forall l,
    match nth_error h1 l, nth_error h2 l with
    | Some o1, Some o2 => same_except_readout o1 o2
    | None, None => True
    | _, _ => False
    end.





(** ** qcs_api_mock.py: channel methods *)

(** [XYChannel.play_pulse(amplitude=0.5, duration=40e-9)]: the other fields
    keep their dataclass defaults ([shape = 'gaussian']); the debug print is
    omitted. *)
Definition xy_play_pulse (path : string) (amplitude duration : R) : PulseOperation :=
  mkPulse path duration amplitude 0 0 "gaussian".

(** [ZChannel.play_pulse(amplitude=0.1, duration=100e-9)] *)
Definition z_play_pulse (path : string) (amplitude duration : R) : PulseOperation :=
  mkPulse path duration amplitude 0 0 "square".

(** [channel.play_pulse(amplitude=amplitude)]: the duration is the default
    of the channel's class; a [ReadoutChannel] has no [play_pulse]. *)
Definition channel_play_pulse (c : Channel) (amp : R) : result PulseOperation :=
  match ch_kind c with
  | KXYChannel => Ok (xy_play_pulse (ch_path c) amp 40e-9)
  | KZChannel => Ok (z_play_pulse (ch_path c) amp 100e-9)
  | KReadoutChannel _ => Err AttributeError
  end.

(** [ReadoutChannel.measure()]; only a [ReadoutChannel] has [measure].
    [MeasureOperation.integration_time] is a float in this embedding: an
    integration time that is not a number is outside the model and is
    reported as [TypeError]. *)
Definition channel_measure (c : Channel) : result Operation :=
  match ch_kind c with
  | KReadoutChannel (PyFloat it) => Ok (OpMeasure (ch_path c) it)
  | KReadoutChannel _ => Err TypeError
  | _ => Err AttributeError
  end.

(** The channel held by an attribute ([None] has no methods). *)
Definition deref_channel (h : heap) (l : option loc) : result Channel :=
  match l with
  | None => Err AttributeError
  | Some l' =>
      match nth_error h l' with
      | Some (OChannel c) => Ok c
      | _ => Err AttributeError
      end
  end.

(** [xs[0]] *)
Definition py_first {A} (xs : list A) : result A :=
  match xs with
  | [] => Err IndexError
  | x :: _ => Ok x
  end.

(** A plain computation inside the builder monad. *)
Definition builder_lift {A} (r : result A) : Builder A :=
  fun ops => match r with Ok a => Ok (a, ops) | Err e => Err e end.

(** ** experiments/rabi.py: RabiExperiment.make_sequence *)

Definition rabi_make_sequence (system : System) (amp : R) : Builder unit :=
  builder_bind (builder_lift (py_first (get_qubit_instances system))) (fun qubit =>
  builder_bind (builder_lift
                  (xy <- deref_channel (sys_heap system) (Some (tq_xy qubit)) ;;
                   channel_play_pulse xy amp)) (fun p =>
  builder_bind (append (OpPulse p)) (fun _ =>
  builder_bind (builder_lift
                  (ro <- deref_channel (sys_heap system) (tq_readout qubit) ;;
                   channel_measure ro)) (fun m =>
  append m)))).

(** ** qcs_api_mock.py: PlottingBackend *)

(** [np.linspace(0, stop, num)] (endpoint=True): [i * (stop / (num - 1))],
    the last sample set to [stop] when [num > 1]; for [num = 1] the step is
    undefined and the sample is [0 * stop]. *)
Definition linspace_closed (stop : R) (num : nat) : list R :=
  let div := (num - 1)%nat in
  map (fun i => if andb (1 <? num)%nat (i =? div)%nat then stop
                else if (0 <? div)%nat then INR i * (stop / INR div)
                else INR i * stop)
      (seq 0 num).

(** [PlottingBackend._generate_waveform(op, sample_rate)]: no lower bound on
    the number of points; [np.linspace] refuses a negative count. *)
Definition generate_waveform_rate (op : PulseOperation) (sample_rate : R)
  : result (list R * list R) :=
  let n := py_int (duration op * sample_rate) in
  if (n <? 0)%Z then Err ValueError
  else
    let n_points := Z.to_nat n in
    let t := linspace_closed (duration op) n_points in
    let envelope :=
      if String.eqb (shape op) "gaussian" then fst (gaussian_branch op t)
      else if String.eqb (shape op) "square" then repeat (amplitude op) n_points
      else repeat 0 n_points in
    Ok (t, envelope).

Definition generate_waveform (op : PulseOperation) : result (list R * list R) :=
  generate_waveform_rate op default_sample_rate.

(** One [axs[k].plot(time_axis, envelope, label=...)] call. *)
Record PlotCall : Type := mkPlot {
  plot_axis : nat;           (* 0: XY control, 1: Z control, 2: readout *)
  plot_time : list R;
  plot_envelope : list R;
  plot_label : string;
  plot_dashed : bool         (* linestyle='--', color='gray' *)
}.

(** The axis a pulse is drawn on, from its channel path. *)
Definition pulse_axis (path : string) : option nat :=
  if str_in "xy" path then Some 0%nat
  else if str_in "z" path then Some 1%nat
  else if str_in "drive" path then Some 2%nat
  else None.

(** The loop of [PlottingBackend.execute], from [current_time]; the result
    is the list of plot calls, in order. *)
Fixpoint plot_operations (current_time : R) (operations : list Operation)
  : result (list PlotCall) :=
  match operations with
  | [] => Ok []
  | OpPulse op :: ops' =>
      tw <- generate_waveform op ;;
      let '(t, envelope) := tw in
      let time_axis := map (fun x => x + current_time) t in
      rest <- plot_operations (current_time + duration op) ops' ;;
      Ok (match pulse_axis (channel_path op) with
          | Some ax => mkPlot ax time_axis envelope (channel_path op) false :: rest
          | None => rest
          end)
  | OpDelay d :: ops' => plot_operations (current_time + d) ops'
  | OpMeasure path itime :: ops' =>
      let readout_op := mkPulse path itime 0.2 0 0 "square" in
      tw <- generate_waveform readout_op ;;
      let '(t, envelope) := tw in
      let time_axis := map (fun x => x + current_time) t in
      rest <- plot_operations (current_time + itime) ops' ;;
      Ok (mkPlot 2 time_axis envelope path true :: rest)
  end.

(** [PlottingBackend.execute(operations)] (figure layout and display
    omitted). *)
Definition plotting_execute (operations : list Operation) : result (list PlotCall) :=
  plot_operations 0 operations.

(** ** Vocabulary of the further properties *)

(** The time an operation advances [current_time] by. *)
Definition op_duration (op : Operation) : R :=
  match op with
  | OpPulse p => duration p
  | OpDelay d => d
  | OpMeasure _ itime => itime
  end.

Definition total_duration (ops : list Operation) : R :=
  fold_right (fun op acc => op_duration op + acc) 0 ops.

(** A plot call moved later by [d]. *)
Definition shift_plot (d : R) (c : PlotCall) : PlotCall :=
  mkPlot (plot_axis c) (map (fun x => x + d) (plot_time c)) (plot_envelope c)
         (plot_label c) (plot_dashed c).

(** The trapezoid integral of the angular drive over the time grid. *)
Fixpoint pulse_area (t_list omega : list R) : R :=
  match t_list, omega with
  | t0 :: ((t1 :: _) as ts), w0 :: ((w1 :: _) as ws) =>
      (t1 - t0) * (w0 + w1) / 2 + pulse_area ts ws
  | _, _ => 0
  end.

(** The angular drive samples [2 * pi * (a * VOLT_TO_RABI_HERTZ)]. *)
Definition angular_envelope (pulse_envelope : list R) : list R :=
  map (fun w => 2 * PI * w) (map (fun a => a * VOLT_TO_RABI_HERTZ) pulse_envelope).

(** Whether a configuration entry has type [TunableQubit]. *)
Definition is_qubit_entry (e : string * DeviceConfig) : bool :=
  match cfg_type (snd e) with
  | Some ty => String.eqb ty "TunableQubit"
  | None => false
  end.

(** A qubit's name and parameters. *)
Definition qubit_view (q : TunableQubit) : string * pydict PyVal :=
  (tq_name q, tq_parameters q).

(** * Properties *)

(** ** Helper lemmas: sampling *)

Lemma linspace_open_length (stop : R) (n : nat) :
  List.length (linspace_open stop n) = n.
Proof. unfold linspace_open. now rewrite length_map, length_seq. Qed.

Lemma linspace_open_nth (stop : R) (n i : nat) :
  (i < n)%nat -> nth i (linspace_open stop n) 0 = INR i * (stop / INR n).
Proof.
  intros Hi. unfold linspace_open.
  set (f := fun i => INR i * (stop / INR n)).
  rewrite nth_indep with (d' := f 0%nat)
    by (rewrite length_map, length_seq; exact Hi).
  rewrite map_nth, seq_nth by exact Hi. reflexivity.
Qed.

Lemma gaussian_samples_length (amp center sigma : R) (t : list R) :
  List.length (fst (gaussian_samples amp center sigma t)) = List.length t.
Proof.
  induction t as [|ti t IH]; simpl; [reflexivity|].
  destruct (gaussian_samples amp center sigma t) as [rest d2] eqn:E.
  simpl in *. now rewrite IH.
Qed.

Lemma gaussian_branch_fst (op : PulseOperation) (t : list R) :
  fst (gaussian_branch op t)
  = fst (gaussian_samples (amplitude op) (duration op / 2) (duration op / 4) t).
Proof.
  unfold gaussian_branch, div_w. simpl.
  destruct (gaussian_samples _ _ _ t). reflexivity.
Qed.

Lemma pulse_to_waveform_time (op : PulseOperation) (sample_rate : R) :
  fst (pulse_to_waveform_rate op sample_rate)
  = linspace_open (duration op) (n_points_of op sample_rate).
Proof. reflexivity. Qed.

Lemma pulse_to_waveform_env_length (op : PulseOperation) (sample_rate : R) :
  List.length (snd (pulse_to_waveform_rate op sample_rate))
  = n_points_of op sample_rate.
Proof.
  unfold pulse_to_waveform_rate, n_points_of; simpl.
  destruct (String.eqb (shape op) "gaussian").
  - rewrite gaussian_branch_fst, gaussian_samples_length, linspace_open_length.
    reflexivity.
  - destruct (String.eqb (shape op) "square"); apply repeat_length.
Qed.

Lemma Int_part_unique (x : R) (z : Z) :
  IZR z <= x < IZR z + 1 -> Int_part x = z.
Proof.
  intros [H1 H2]. destruct (base_Int_part x) as [B1 B2].
  assert (Hlt1 : (Int_part x < z + 1)%Z).
  { apply lt_IZR. rewrite plus_IZR. simpl. lra. }
  assert (Hlt2 : (z < Int_part x + 1)%Z).
  { apply lt_IZR. rewrite plus_IZR. simpl. lra. }
  lia.
Qed.

Lemma n_points_of_floor (op : PulseOperation) (sample_rate : R) (z : Z) :
  0 <= duration op * sample_rate ->
  IZR z <= duration op * sample_rate < IZR z + 1 ->
  n_points_of op sample_rate = Z.to_nat (Z.max z 2).
Proof.
  intros Hpos Hz. unfold n_points_of, py_int.
  destruct (Rle_dec 0 (duration op * sample_rate)) as [_|C]; [|lra].
  now rewrite (Int_part_unique _ _ Hz).
Qed.

Lemma INR_pos_of_2 (n : nat) : (2 <= n)%nat -> 0 < INR n.
Proof. intros H. apply lt_0_INR. lia. Qed.

(** ** C1 *)

(** C1: for a pulse of duration [D > 0] and a sample rate [R > 0],
    [pulse_to_waveform] returns a time array and an envelope array of the
    same length [N = max(floor(D * R), 2)] (here [z] is [floor(D * R)]), so
    [N >= 2]; the time points are [i * D / N] for [i < N]: the first is [0],
    all lie in [[0, D)], and consecutive points are [D / N] apart. *)
Theorem pulse_to_waveform_shape (op : PulseOperation) (sample_rate : R) (z : Z)
  (HD : 0 < duration op) (HR : 0 < sample_rate)
  (Hz : IZR z <= duration op * sample_rate < IZR z + 1) :
  let t := fst (pulse_to_waveform_rate op sample_rate) in
  let envelope := snd (pulse_to_waveform_rate op sample_rate) in
  let N := Z.to_nat (Z.max z 2) in
  List.length t = N /\ List.length envelope = N /\ (2 <= N)%nat /\
  (forall i, (i < N)%nat -> nth i t 0 = INR i * (duration op / INR N)) /\
  nth 0 t 0 = 0 /\
  (forall i, (i < N)%nat -> 0 <= nth i t 0 < duration op) /\
  (forall i, (S i < N)%nat -> nth (S i) t 0 - nth i t 0 = duration op / INR N).
Proof.
  intros t envelope N.
  assert (HN : n_points_of op sample_rate = N).
  { apply n_points_of_floor; [|exact Hz]. apply Rmult_le_pos; lra. }
  assert (H2 : (2 <= N)%nat) by (unfold N; lia).
  assert (HNpos : 0 < INR N) by (apply INR_pos_of_2; exact H2).
  assert (Hnth : forall i, (i < N)%nat -> nth i t 0 = INR i * (duration op / INR N)).
  { intros i Hi. unfold t. rewrite pulse_to_waveform_time, HN.
    now apply linspace_open_nth. }
  split; [unfold t; now rewrite pulse_to_waveform_time, linspace_open_length|].
  split; [unfold envelope; now rewrite pulse_to_waveform_env_length|].
  split; [exact H2|].
  split; [exact Hnth|].
  split; [rewrite Hnth by lia; simpl; lra|].
  split.
  - intros i Hi. rewrite Hnth by exact Hi.
    assert (Hlt : INR i < INR N) by (apply lt_INR; exact Hi).
    assert (Hstep : 0 < duration op / INR N) by (apply Rdiv_lt_0_compat; lra).
    split.
    + apply Rmult_le_pos; [apply pos_INR | lra].
    + apply Rlt_le_trans with (INR N * (duration op / INR N)).
      * apply Rmult_lt_compat_r; assumption.
      * right. field. lra.
  - intros i Hi. rewrite !Hnth by lia. rewrite S_INR. ring.
Qed.

Lemma pulse_to_waveform_shape_witness :
  let op := mkPulse "q0.xy" 40e-9 0.5 0 0 "gaussian" in
  (0 < duration op /\ 0 < 1e9 /\ IZR 40 <= duration op * 1e9 < IZR 40 + 1) /\
  List.length (fst (pulse_to_waveform_rate op 1e9)) = 40%nat.
Proof.
  intros op.
  assert (H : 0 < duration op /\ 0 < 1e9 /\ IZR 40 <= duration op * 1e9 < IZR 40 + 1)
    by (simpl; lra).
  split; [exact H|].
  destruct H as (H1 & H2 & H3).
  exact (proj1 (pulse_to_waveform_shape op 1e9 40 H1 H2 H3)).
Defined.

(** ** C2 *)

Lemma gaussian_samples_cons (amp center sigma ti : R) (t : list R) :
  fst (gaussian_samples amp center sigma (ti :: t))
  = amp * exp (-0.5 * ((ti - center) / sigma) ^ 2)
    :: fst (gaussian_samples amp center sigma t).
Proof.
  simpl. destruct (gaussian_samples amp center sigma t). reflexivity.
Qed.

Lemma gaussian_samples_nth (amp center sigma : R) (t : list R) (i : nat) :
  (i < List.length t)%nat ->
  nth i (fst (gaussian_samples amp center sigma t)) 0
  = amp * exp (-0.5 * ((nth i t 0 - center) / sigma) ^ 2).
Proof.
  revert i. induction t as [|ti t IH]; intros i Hi; simpl in Hi; [lia|].
  rewrite gaussian_samples_cons.
  destruct i as [|i]; simpl; [reflexivity|].
  apply IH. lia.
Qed.

Lemma gaussian_factor_bounds (y : R) : 0 < exp (-0.5 * y ^ 2) <= 1.
Proof.
  split; [apply exp_pos|].
  rewrite <- exp_0.
  assert (0 <= y ^ 2) by (simpl; nra).
  destruct (Req_dec (-0.5 * y ^ 2) 0) as [E|E].
  - rewrite E. lra.
  - left. apply exp_increasing. lra.
Qed.

(** C2: for a gaussian pulse of duration [D > 0] and amplitude [A], every
    envelope sample is [A * exp(-0.5 * ((t_i - D/2) / (D/4))^2)] at its time
    sample [t_i]; this envelope has the value [A] at the center [t = D/2] and
    never exceeds [|A|] in magnitude, so [A] is its peak; when the number of
    samples is even, the center is a sample point and the sample there is [A]. *)
Theorem pulse_to_waveform_gaussian (op : PulseOperation) (sample_rate : R)
  (HD : 0 < duration op) (Hg : shape op = "gaussian"%string) :
  let t := fst (pulse_to_waveform_rate op sample_rate) in
  let envelope := snd (pulse_to_waveform_rate op sample_rate) in
  let D := duration op in
  let A := amplitude op in
  let g := fun x => A * exp (-0.5 * ((x - D / 2) / (D / 4)) ^ 2) in
  List.length envelope = List.length t /\
  (forall i, (i < List.length t)%nat -> nth i envelope 0 = g (nth i t 0)) /\
  g (D / 2) = A /\
  (forall x, Rabs (g x) <= Rabs A) /\
  (forall i, (i < List.length t)%nat -> (2 * i = List.length t)%nat ->
     nth i t 0 = D / 2 /\ nth i envelope 0 = A).
Proof.
  intros t envelope D A g.
  assert (Ht : t = linspace_open D (n_points_of op sample_rate)) by reflexivity.
  assert (Henv : envelope
    = fst (gaussian_samples A (D / 2) (D / 4) t)).
  { unfold envelope, pulse_to_waveform_rate. simpl.
    rewrite Hg. simpl. rewrite gaussian_branch_fst. reflexivity. }
  assert (Hsamp : forall i, (i < List.length t)%nat -> nth i envelope 0 = g (nth i t 0)).
  { intros i Hi. rewrite Henv. now apply gaussian_samples_nth. }
  split; [rewrite Henv; apply gaussian_samples_length|].
  split; [exact Hsamp|].
  assert (Hc : g (D / 2) = A).
  { unfold g. replace ((D / 2 - D / 2) / (D / 4)) with 0 by (unfold Rdiv; ring).
    replace (-0.5 * 0 ^ 2) with 0 by ring. rewrite exp_0. ring. }
  split; [exact Hc|].
  split.
  - intros x. unfold g. rewrite Rabs_mult.
    destruct (gaussian_factor_bounds ((x - D / 2) / (D / 4))) as [P Q].
    rewrite (Rabs_right (exp _)) by lra.
    rewrite <- (Rmult_1_r (Rabs A)) at 2.
    apply Rmult_le_compat_l; [apply Rabs_pos | exact Q].
  - intros i Hi Heven.
    assert (Hti : nth i t 0 = D / 2).
    { rewrite Ht in Hi, Heven |- *. rewrite linspace_open_length in Hi.
      rewrite linspace_open_nth by exact Hi.
      rewrite linspace_open_length in Heven. rewrite <- Heven.
      rewrite mult_INR. simpl (INR 2).
      assert (0 < INR i).
      { apply lt_0_INR. lia. }
      field. lra. }
    split; [exact Hti|]. rewrite Hsamp by exact Hi. rewrite Hti. exact Hc.
Qed.

Lemma pulse_to_waveform_gaussian_witness :
  let op := mkPulse "q0.xy" 40e-9 0.5 0 0 "gaussian" in
  0 < duration op /\
  nth 20 (snd (pulse_to_waveform_rate op 1e9)) 0 = 0.5.
Proof.
  intros op.
  assert (HD : 0 < duration op) by (simpl; lra).
  split; [exact HD|].
  assert (Hn : n_points_of op 1e9 = 40%nat).
  { rewrite (n_points_of_floor op 1e9 40) by (simpl; lra). reflexivity. }
  destruct (pulse_to_waveform_gaussian op 1e9 HD eq_refl)
    as (_ & _ & _ & _ & Hc).
  assert (Hlen : List.length (fst (pulse_to_waveform_rate op 1e9)) = 40%nat).
  { rewrite pulse_to_waveform_time, linspace_open_length. exact Hn. }
  apply Hc; rewrite Hlen; lia.
Defined.

(** ** C5 *)

Lemma nth_repeat_lt (x : R) (n i : nat) : (i < n)%nat -> nth i (repeat x n) 0 = x.
Proof.
  revert i. induction n as [|n IH]; intros i Hi; [lia|].
  destruct i as [|i]; simpl; [reflexivity|]. apply IH. lia.
Qed.

(** C5: the envelope returned by [pulse_to_waveform] always has the [N]
    samples of the time array; for the shape "square" every sample equals
    the amplitude, and for a shape that is neither "gaussian" nor "square"
    every sample is [0] (the fallback; the function returns normally). *)
Theorem pulse_to_waveform_square_fallback (op : PulseOperation) (sample_rate : R) :
  let envelope := snd (pulse_to_waveform_rate op sample_rate) in
  let N := n_points_of op sample_rate in
  List.length envelope = N /\
  (shape op = "square"%string ->
     forall i, (i < N)%nat -> nth i envelope 0 = amplitude op) /\
  (shape op <> "gaussian"%string -> shape op <> "square"%string ->
     forall i, (i < N)%nat -> nth i envelope 0 = 0).
Proof.
  intros envelope N.
  split; [apply pulse_to_waveform_env_length|].
  split.
  - intros Hs i Hi. unfold envelope, pulse_to_waveform_rate. simpl.
    rewrite Hs. simpl. now apply nth_repeat_lt.
  - intros Hg Hs i Hi. unfold envelope, pulse_to_waveform_rate. simpl.
    apply String.eqb_neq in Hg, Hs. rewrite Hg, Hs.
    now apply nth_repeat_lt.
Qed.

(** ** C9 *)

Lemma gaussian_samples_divisors (amp center sigma : R) (t : list R) :
  snd (gaussian_samples amp center sigma t) = repeat sigma (List.length t).
Proof.
  induction t as [|ti t IH]; simpl; [reflexivity|].
  destruct (gaussian_samples amp center sigma t) as [rest d2]. simpl in *.
  now rewrite IH.
Qed.

Lemma gaussian_branch_divisors (op : PulseOperation) (t : list R) :
  snd (gaussian_branch op t)
  = [4; 2] ++ repeat (duration op / 4) (List.length t).
Proof.
  unfold gaussian_branch, div_w. simpl.
  pose proof (gaussian_samples_divisors (amplitude op) (duration op / 2)
                (duration op / 4) t) as H.
  destruct (gaussian_samples _ _ _ t). simpl in *. now rewrite H.
Qed.

(** C9: the divisions performed by the gaussian branch of
    [pulse_to_waveform] are by [4], by [2] and, once per sample, by
    [sigma = duration / 4]; when [duration > 0] no divisor is zero (every
    envelope value is a real number), and when [duration = 0] the branch
    divides by [sigma = 0]. *)
Theorem gaussian_branch_no_zero_division (op : PulseOperation) (sample_rate : R) :
  let t := fst (pulse_to_waveform_rate op sample_rate) in
  let divisors := snd (gaussian_branch op t) in
  divisors = [4; 2] ++ repeat (duration op / 4) (n_points_of op sample_rate) /\
  (0 < duration op -> forall d, In d divisors -> d <> 0) /\
  (duration op = 0 -> In 0 divisors).
Proof.
  intros t divisors.
  assert (Hd : divisors = [4; 2] ++ repeat (duration op / 4) (n_points_of op sample_rate)).
  { unfold divisors. rewrite gaussian_branch_divisors. unfold t.
    now rewrite pulse_to_waveform_time, linspace_open_length. }
  split; [exact Hd|].
  split.
  - intros HD d Hin. rewrite Hd in Hin.
    destruct Hin as [<-|[<-|Hin]]; [lra|lra|].
    apply repeat_spec in Hin. subst d. lra.
  - intros HD0. rewrite Hd.
    assert (Hn : n_points_of op sample_rate = 2%nat).
    { unfold n_points_of, py_int. rewrite HD0, Rmult_0_l.
      destruct (Rle_dec 0 0) as [_|C]; [|lra].
      rewrite (Int_part_unique 0 0) by (simpl; lra). reflexivity. }
    rewrite Hn, HD0. right. right. left. unfold Rdiv. ring.
Qed.

(** ** C7 *)

(** C7: a sequence of [append] and [delay] calls extends the builder's
    operations with exactly the operations of the calls, in call order
    ([delay d] contributing [DelayOperation(d)]); [Experiment.run] starts
    from a fresh (empty) builder, passes its final operations list to
    [backend.execute] and returns the backend's result unchanged (and an
    error of [make_sequence] is propagated). *)
Theorem builder_preserves_order :
  (forall cs ops0, run_calls cs ops0 = Ok (tt, ops0 ++ map call_operation cs)) /\
  (forall (A : Type) (execute : list Operation -> result A) cs,
     run (run_calls cs) execute = execute (map call_operation cs)) /\
  (forall (A : Type) (make_sequence : Builder unit)
          (execute : list Operation -> result A),
     run make_sequence execute
     = match make_sequence [] with
       | Ok (_, ops) => execute ops
       | Err e => Err e
       end).
Proof.
  assert (H : forall cs ops0,
             run_calls cs ops0 = Ok (tt, ops0 ++ map call_operation cs)).
  { induction cs as [|c cs IH]; intros ops0; simpl.
    - now rewrite app_nil_r.
    - destruct c as [op|d]; unfold builder_bind; simpl; rewrite IH;
        now rewrite <- app_assoc. }
  split; [exact H|].
  split.
  - intros A execute cs. unfold run. now rewrite H.
  - intros A make_sequence execute. reflexivity.
Qed.

(** ** C6 *)

Lemma prefix_spec (s1 s2 : string) :
  String.prefix s1 s2 = true <-> exists suf, s2 = (s1 ++ suf)%string.
Proof.
  revert s2. induction s1 as [|a s1 IH]; intros s2; simpl.
  - split; [intros _; now exists s2 | intros _; now destruct s2].
  - destruct s2 as [|b s2]; simpl.
    + split; [discriminate | intros [suf E]; discriminate].
    + destruct (Ascii.ascii_dec a b) as [<-|Hne].
      * rewrite IH. split; intros [suf E]; exists suf.
        -- now rewrite E.
        -- now injection E.
      * split; [discriminate|]. intros [suf E]. injection E. intros _ C.
        now subst.
Qed.

Lemma str_in_spec (sub s : string) :
  str_in sub s = true <-> exists pre suf, s = (pre ++ sub ++ suf)%string.
Proof.
  induction s as [|c s IH].
  - change (str_in sub EmptyString) with (String.prefix sub EmptyString || false).
    rewrite orb_false_r, prefix_spec. split.
    + intros [suf E]. now exists EmptyString, suf.
    + intros [pre [suf E]]. exists suf.
      destruct pre; simpl in E; [exact E | discriminate].
  - change (str_in sub (String c s))
      with (String.prefix sub (String c s) || str_in sub s).
    rewrite orb_true_iff, prefix_spec, IH. split.
    + intros [[suf E]|[pre [suf E]]].
      * now exists EmptyString, suf.
      * exists (String c pre), suf. simpl. now rewrite E.
    + intros [pre [suf E]]. destruct pre as [|c' pre].
      * left. now exists suf.
      * right. simpl in E. injection E. intros E' _. now exists pre, suf.
Qed.

Lemma first_xy_pulse_none (ops : list Operation) :
  (forall p, In (OpPulse p) ops -> ~ identifies_xy (channel_path p)) ->
  first_xy_pulse ops = None.
Proof.
  induction ops as [|o ops IH]; intros H; simpl; [reflexivity|].
  destruct o as [p| |].
  - destruct (str_in "xy" (channel_path p)) eqn:E.
    + exfalso. apply (H p (or_introl eq_refl)). now apply str_in_spec.
    + apply IH. intros q Hq. apply H. now right.
  - apply IH. intros q Hq. apply H. now right.
  - apply IH. intros q Hq. apply H. now right.
Qed.

Lemma first_xy_pulse_app (pre post : list Operation) (p : PulseOperation) :
  (forall q, In (OpPulse q) pre -> ~ identifies_xy (channel_path q)) ->
  identifies_xy (channel_path p) ->
  first_xy_pulse (pre ++ OpPulse p :: post) = Some p.
Proof.
  intros Hpre Hp. induction pre as [|o pre IH]; simpl.
  - apply str_in_spec in Hp. now rewrite Hp.
  - destruct o as [q| |].
    + destruct (str_in "xy" (channel_path q)) eqn:E.
      * exfalso. apply (Hpre q (or_introl eq_refl)). now apply str_in_spec.
      * apply IH. intros q' Hq. apply Hpre. now right.
    + apply IH. intros q' Hq. apply Hpre. now right.
    + apply IH. intros q' Hq. apply Hpre. now right.
Qed.

(** C6: for any solver and system, when no [PulseOperation] of the sequence
    has a channel path naming an XY channel, [execute] returns [0.0];
    otherwise, writing the sequence as [pre ++ [pulse] ++ post] with [pulse]
    the first such pulse, the result is the simulator's result on the
    waveform of [pulse] alone (with the first qubit's parameters): delays,
    measurements and pulses other than [pulse] have no effect. *)
Theorem sim_execute_first_xy_pulse
  (mesolve_expect : (R -> R) -> list R -> list R) (system : System) :
  (forall ops,
     (forall p, In (OpPulse p) ops -> ~ identifies_xy (channel_path p)) ->
     sim_execute mesolve_expect system ops = Ok 0) /\
  (forall pre p post,
     (forall q, In (OpPulse q) pre -> ~ identifies_xy (channel_path q)) ->
     identifies_xy (channel_path p) ->
     sim_execute mesolve_expect system (pre ++ OpPulse p :: post)
     = sim_execute mesolve_expect system [OpPulse p] /\
     sim_execute mesolve_expect system (pre ++ OpPulse p :: post)
     = match get_qubit_instances system with
       | [] => Err IndexError
       | qubit :: _ =>
           simulate_qubit_evolution mesolve_expect
             (snd (pulse_to_waveform p)) (fst (pulse_to_waveform p))
             (tq_parameters qubit)
       end).
Proof.
  split.
  - intros ops H. unfold sim_execute. now rewrite first_xy_pulse_none.
  - intros pre p post Hpre Hp. unfold sim_execute.
    rewrite first_xy_pulse_app by assumption.
    assert (E1 : first_xy_pulse [OpPulse p] = Some p)
      by (apply (first_xy_pulse_app [] [] p); [simpl; tauto | exact Hp]).
    rewrite E1.
    destruct (pulse_to_waveform p) as [t_list envelope]. simpl.
    split; reflexivity.
Qed.

(** ** Helper lemmas: the simulator *)

Lemma parse_frequency_ok (p : pydict PyVal) :
  params_well_formed p -> exists r, parse_frequency p = Ok r.
Proof.
  unfold params_well_formed, parse_frequency.
  destruct (dict_get p "frequency") as [v|]; [|intros _; now eexists].
  intros [[r ->]|[l [[->| ->] [Hne Hall]]]]; [now exists r| |];
    (destruct l as [|x l]; [congruence|]);
    inversion Hall as [|? ? [r ->] _]; now exists r.
Qed.

Lemma simulate_after_parse (mesolve_expect : (R -> R) -> list R -> list R)
  (env t : list R) (p : pydict PyVal) (r : R) :
  parse_frequency p = Ok r ->
  simulate_qubit_evolution mesolve_expect env t p
  = simulate_qubit_evolution mesolve_expect env t [].
Proof. intros H. unfold simulate_qubit_evolution. now rewrite H. Qed.

Lemma np_interp_ok (x : R) (xp fp : list R) :
  List.length xp = List.length fp -> xp <> [] ->
  np_interp x xp fp = Ok (interp_grid x xp fp).
Proof.
  intros H Hne. unfold np_interp. rewrite H, Nat.eqb_refl. cbn [negb].
  destruct xp; [congruence|reflexivity].
Qed.

Lemma simulate_equal_lengths (mesolve_expect : (R -> R) -> list R -> list R)
  (env t : list R) :
  List.length t = List.length env -> t <> [] ->
  simulate_qubit_evolution mesolve_expect env t []
  = py_last (mesolve_expect (drive_of env t) t).
Proof.
  intros H Hne. unfold simulate_qubit_evolution. simpl.
  rewrite !length_map, H, Nat.eqb_refl. cbn [negb].
  rewrite np_interp_ok by first [rewrite !length_map; exact H | exact Hne].
  reflexivity.
Qed.

Lemma simulate_empty_grid (mesolve_expect : (R -> R) -> list R -> list R) :
  simulate_qubit_evolution mesolve_expect [] [] [] = Err ValueError.
Proof. reflexivity. Qed.

Lemma simulate_unequal_lengths (mesolve_expect : (R -> R) -> list R -> list R)
  (env t : list R) :
  List.length t <> List.length env ->
  simulate_qubit_evolution mesolve_expect env t [] = Err ValueError.
Proof.
  intros H. unfold simulate_qubit_evolution. simpl.
  rewrite !length_map. apply Nat.eqb_neq in H. now rewrite H.
Qed.

Lemma simulate_value_error_cases (mesolve_expect : (R -> R) -> list R -> list R)
  (env t : list R) :
  List.length t <> List.length env \/ t = [] ->
  simulate_qubit_evolution mesolve_expect env t [] = Err ValueError.
Proof.
  intros [H| ->]; [now apply simulate_unequal_lengths|].
  destruct env as [|a env]; [apply simulate_empty_grid|].
  apply simulate_unequal_lengths. simpl. discriminate.
Qed.

Lemma py_last_not_ValueError (xs : list R) : py_last xs <> Err ValueError.
Proof. destruct xs; discriminate. Qed.

Lemma py_last_ok (xs : list R) : xs <> [] -> exists r, py_last xs = Ok r.
Proof. destruct xs as [|x xs]; [congruence|]. intros _. now eexists. Qed.

(** ** C10 *)

(** C10: for any solver, envelope and time arrays, two parameter maps whose
    [frequency] entries are floats or nonempty lists or tuples of floats, and
    which agree on every other key, give the same result of
    [simulate_qubit_evolution]: the frequency does not enter the computation. *)
Theorem simulate_ignores_frequency
  (mesolve_expect : (R -> R) -> list R -> list R) (env t : list R)
  (p1 p2 : pydict PyVal)
  (H1 : exists v, dict_get p1 "frequency" = Some v /\ float_entry v)
  (H2 : exists v, dict_get p2 "frequency" = Some v /\ float_entry v)
  (Hrest : forall k, k <> "frequency"%string -> dict_get p1 k = dict_get p2 k) :
  simulate_qubit_evolution mesolve_expect env t p1
  = simulate_qubit_evolution mesolve_expect env t p2.
Proof.
  assert (W1 : params_well_formed p1).
  { destruct H1 as [v [E F]]. unfold params_well_formed. now rewrite E. }
  assert (W2 : params_well_formed p2).
  { destruct H2 as [v [E F]]. unfold params_well_formed. now rewrite E. }
  destruct (parse_frequency_ok p1 W1) as [r1 E1].
  destruct (parse_frequency_ok p2 W2) as [r2 E2].
  rewrite (simulate_after_parse _ _ _ _ r1 E1), (simulate_after_parse _ _ _ _ r2 E2).
  reflexivity.
Qed.

Lemma simulate_ignores_frequency_witness :
  let p1 := [("frequency"%string, PyFloat 5e9)] in
  let p2 := [("frequency"%string, PyList [PyFloat 6e9; PyFloat 6.1e9])] in
  (exists v, dict_get p1 "frequency" = Some v /\ float_entry v) /\
  (exists v, dict_get p2 "frequency" = Some v /\ float_entry v) /\
  (forall k, k <> "frequency"%string -> dict_get p1 k = dict_get p2 k) /\
  simulate_qubit_evolution mesolve_exact [0; 0] [0; 1e-9] p1
  = simulate_qubit_evolution mesolve_exact [0; 0] [0; 1e-9] p2.
Proof.
  intros p1 p2.
  assert (H1 : exists v, dict_get p1 "frequency" = Some v /\ float_entry v).
  { eexists. split; [reflexivity|]. left. now eexists. }
  assert (H2 : exists v, dict_get p2 "frequency" = Some v /\ float_entry v).
  { eexists. split; [reflexivity|]. right. eexists. split; [left; reflexivity|].
    split; [discriminate|]. repeat constructor; eexists; reflexivity. }
  assert (H3 : forall k, k <> "frequency"%string -> dict_get p1 k = dict_get p2 k).
  { intros k Hk. simpl. apply String.eqb_neq in Hk. now rewrite Hk. }
  split; [exact H1|]. split; [exact H2|]. split; [exact H3|].
  exact (simulate_ignores_frequency mesolve_exact [0; 0] [0; 1e-9] p1 p2 H1 H2 H3).
Defined.

(** ** C4 *)

Lemma evolve_length (f : R -> R) (t0 : R) (ts : list R) (s : qstate) :
  List.length (evolve f t0 ts s) = List.length ts.
Proof.
  revert t0 s. induction ts as [|t1 ts IH]; intros t0 s; simpl; [reflexivity|].
  now rewrite IH.
Qed.

Lemma mesolve_exact_length (f : R -> R) (t_list : list R) :
  List.length (mesolve_exact f t_list) = List.length t_list.
Proof.
  destruct t_list as [|t0 ts]; simpl; [reflexivity|]. now rewrite evolve_length.
Qed.

(** C4 (as amended): for a solver that yields one expectation value per time
    point and well-formed qubit parameters, [simulate_qubit_evolution] fails
    with [ValueError] exactly when the two arrays differ in length or are both
    empty, and then whatever the solver: the length check raises before the
    solver is called, and on an empty grid [np.interp] raises when
    [qt.mesolve] evaluates the drive coefficient.  When the lengths match and
    the arrays are nonempty it returns a value. *)
Theorem simulate_length_check
  (mesolve_expect : (R -> R) -> list R -> list R)
  (Hsolver : forall f tl, List.length (mesolve_expect f tl) = List.length tl)
  (env t : list R) (p : pydict PyVal) (Hwf : params_well_formed p) :
  (simulate_qubit_evolution mesolve_expect env t p = Err ValueError
   <-> List.length t <> List.length env \/ t = []) /\
  (List.length t <> List.length env \/ t = [] ->
   forall other_solver : (R -> R) -> list R -> list R,
     simulate_qubit_evolution other_solver env t p = Err ValueError) /\
  (List.length t = List.length env -> t <> [] ->
   exists r, simulate_qubit_evolution mesolve_expect env t p = Ok r).
Proof.
  destruct (parse_frequency_ok p Hwf) as [r0 E0].
  assert (Hp : forall solver, simulate_qubit_evolution solver env t p
                              = simulate_qubit_evolution solver env t [])
    by (intros solver; exact (simulate_after_parse solver env t p r0 E0)).
  split; [|split].
  - rewrite Hp. split.
    + intros H.
      destruct (Nat.eq_dec (List.length t) (List.length env)) as [Heq|Hneq];
        [|now left].
      destruct t as [|x t']; [now right|].
      rewrite simulate_equal_lengths in H by (exact Heq || discriminate).
      exfalso. exact (py_last_not_ValueError _ H).
    + apply simulate_value_error_cases.
  - intros H other. rewrite Hp. now apply simulate_value_error_cases.
  - intros Heq Hne. rewrite Hp, simulate_equal_lengths by assumption.
    apply py_last_ok. intros E.
    apply (f_equal (@List.length R)) in E. rewrite Hsolver in E.
    destruct t; [congruence | discriminate].
Qed.

Lemma simulate_length_check_witness :
  (forall f tl, List.length (mesolve_exact f tl) = List.length tl) /\
  params_well_formed [] /\
  simulate_qubit_evolution mesolve_exact [1] [0; 1e-9] [] = Err ValueError.
Proof.
  assert (Hs : forall f tl, List.length (mesolve_exact f tl) = List.length tl)
    by exact mesolve_exact_length.
  assert (Hw : params_well_formed []) by exact I.
  split; [exact Hs|]. split; [exact Hw|].
  apply (proj2 (proj1 (simulate_length_check mesolve_exact Hs [1] [0; 1e-9] [] Hw))).
  left. simpl. discriminate.
Defined.

(** C4, as stated, fails at empty arrays: their lengths match and the
    parameters are well-formed (all defaults), yet the call raises
    [ValueError]: [np.interp] rejects the empty grid when [qt.mesolve]
    evaluates [envelope_func]. *)
Lemma simulate_empty_arrays_raises :
  params_well_formed [] /\
  List.length (@nil R) = List.length (@nil R) /\
  simulate_qubit_evolution mesolve_exact [] [] [] = Err ValueError.
Proof. split; [exact I|]. split; reflexivity. Qed.

(** ** C8 *)

Lemma rotate_x_norm2 (theta : R) (s : qstate) :
  norm2 (rotate_x theta s) = norm2 s.
Proof.
  unfold norm2, rotate_x. cbn [q_ar q_ai q_br q_bi].
  pose proof (sin2_cos2 (theta / 2)) as E. unfold Rsqr in E.
  set (c := cos (theta / 2)) in *. set (sn := sin (theta / 2)) in *.
  replace ((c * q_ar s + sn * q_bi s) ^ 2 + (c * q_ai s - sn * q_br s) ^ 2
        + (c * q_br s + sn * q_ai s) ^ 2 + (c * q_bi s - sn * q_ar s) ^ 2)
    with ((sn * sn + c * c)
          * (q_ar s ^ 2 + q_ai s ^ 2 + q_br s ^ 2 + q_bi s ^ 2)) by ring.
  rewrite E. ring.
Qed.

Lemma rotate_x_0 (s : qstate) : rotate_x 0 s = s.
Proof.
  destruct s as [a b c d]. unfold rotate_x; simpl.
  replace (0 / 2) with 0 by (unfold Rdiv; ring).
  rewrite cos_0, sin_0. f_equal; ring.
Qed.

Lemma excited_pop_bounds (s : qstate) : norm2 s = 1 -> 0 <= excited_pop s <= 1.
Proof.
  unfold norm2, excited_pop. intros H. simpl in *.
  split; nra.
Qed.

Lemma final_state_norm2 (f : R -> R) (t0 : R) (ts : list R) (s : qstate) :
  norm2 (final_state f t0 ts s) = norm2 s.
Proof.
  revert t0 s. induction ts as [|t1 ts IH]; intros t0 s; simpl; [reflexivity|].
  now rewrite IH, rotate_x_norm2.
Qed.

Lemma evolve_last (f : R -> R) (t0 : R) (ts : list R) (s : qstate) (d : R) :
  last (excited_pop s :: evolve f t0 ts s) d = excited_pop (final_state f t0 ts s).
Proof.
  revert t0 s. induction ts as [|t1 ts IH]; intros t0 s; [reflexivity|].
  simpl evolve. simpl final_state.
  rewrite <- (IH t1). destruct ts; reflexivity.
Qed.

Lemma final_state_no_drive (f : R -> R) (t0 : R) (ts : list R) (s : qstate) :
  (forall x, f x = 0) -> final_state f t0 ts s = s.
Proof.
  intros Hf. revert t0. induction ts as [|t1 ts IH]; intros t0; simpl; [reflexivity|].
  rewrite !Hf. replace ((t1 - t0) * (0 + 0) / 2) with 0 by (unfold Rdiv; ring).
  rewrite rotate_x_0. apply IH.
Qed.

Lemma interp_aux_zero (x x0 : R) (xp fp : list R) :
  Forall (fun y => y = 0) fp -> interp_aux x x0 0 xp fp = 0.
Proof.
  revert x0 fp. induction xp as [|x1 xs IH]; intros x0 fp Hfp; simpl;
    [reflexivity|].
  destruct fp as [|y1 ys]; [reflexivity|].
  inversion Hfp as [|? ? Hy Hys]; subst y1.
  destruct (Rlt_dec x x1).
  - unfold Rdiv. ring.
  - now apply IH.
Qed.

Lemma drive_of_zero (env t : list R) :
  Forall (fun a => a = 0) env -> forall x, drive_of env t x = 0.
Proof.
  intros Henv x. unfold drive_of, interp_grid.
  assert (Hz : Forall (fun y => y = 0)
                 (map (fun w => 2 * PI * w)
                    (map (fun a => a * VOLT_TO_RABI_HERTZ) env))).
  { apply Forall_map, Forall_map. eapply Forall_impl; [|exact Henv].
    intros a ->. ring. }
  destruct t as [|x0 xs]; [reflexivity|].
  destruct (map _ (map _ env)) as [|y0 ys]; [reflexivity|].
  inversion Hz as [|? ? Hy Hys]; subst y0.
  destruct (Rle_dec x x0); [reflexivity|]. now apply interp_aux_zero.
Qed.

(** C8: with the exact solution of the Schroedinger equation for
    [H(t) = Omega(t) * sigmax / 2] as the solver, well-formed parameters and
    nonempty arrays of equal length, [simulate_qubit_evolution] returns the
    excited-state population [|b|^2] of the state reached at the final time
    sample, a number in [[0, 1]]; for an all-zero envelope that population is
    [0] (so within [1e-6] of it). *)
Theorem simulate_zero_drive (env t : list R) (p : pydict PyVal)
  (Hwf : params_well_formed p) (Hlen : List.length t = List.length env)
  (Hne : t <> []) :
  (exists r,
     simulate_qubit_evolution mesolve_exact env t p = Ok r /\
     r = excited_pop (final_state (drive_of env t) (hd 0 t) (tl t) ground) /\
     0 <= r <= 1) /\
  (Forall (fun a => a = 0) env ->
   exists r, simulate_qubit_evolution mesolve_exact env t p = Ok r /\
             r = 0 /\ Rabs r <= 1e-6).
Proof.
  destruct (parse_frequency_ok p Hwf) as [r0 E0].
  rewrite (simulate_after_parse _ _ _ _ r0 E0), simulate_equal_lengths by assumption.
  destruct t as [|t0 ts]; [congruence|].
  unfold mesolve_exact, py_last. rewrite evolve_last. simpl hd; simpl tl.
  split.
  - eexists. split; [reflexivity|]. split; [reflexivity|].
    apply excited_pop_bounds. rewrite final_state_norm2.
    unfold norm2, ground; simpl. ring.
  - intros Hz. eexists. split; [reflexivity|].
    rewrite final_state_no_drive by (apply drive_of_zero; exact Hz).
    unfold excited_pop, ground; simpl.
    split; [ring|]. apply Rabs_le. lra.
Qed.

Lemma simulate_zero_drive_witness :
  params_well_formed [] /\
  List.length [0; 1e-9] = List.length [0; 0] /\
  [0; 1e-9] <> [] /\
  simulate_qubit_evolution mesolve_exact [0; 0] [0; 1e-9] [] = Ok 0.
Proof.
  assert (Hw : params_well_formed []) by exact I.
  assert (Hl : List.length [0; 1e-9] = List.length [0; 0]) by reflexivity.
  assert (Hn : [0; 1e-9] <> []) by discriminate.
  split; [exact Hw|]. split; [exact Hl|]. split; [exact Hn|].
  destruct (proj2 (simulate_zero_drive [0; 0] [0; 1e-9] [] Hw Hl Hn))
    as [r [E [-> _]]].
  - repeat constructor.
  - exact E.
Defined.

(** ** Helper lemmas: dicts and the heap *)



Lemma dict_get_none {V} (d : pydict V) (k : string) :
  ~ In k (map fst d) -> dict_get d k = None.
Proof.
  induction d as [|[k' v'] d IH]; simpl; [reflexivity|].
  intros H. destruct (String.eqb_spec k k') as [->|_]; [tauto|].
  apply IH. tauto.
Qed.

Lemma dict_set_fresh {V} (d : pydict V) (k : string) (v : V) :
  ~ In k (map fst d) -> dict_set d k v = d ++ [(k, v)].
Proof.
  induction d as [|[k' v'] d IH]; simpl; [reflexivity|].
  intros H. destruct (String.eqb_spec k k') as [->|_]; [tauto|].
  f_equal. apply IH. tauto.
Qed.

Lemma new_TunableQubit_eq (h : heap) (name : string) (c : DeviceConfig) :
  exists o1 o2,
    new_TunableQubit h name c
    = (S (S (List.length h)),
       h ++ [o1; o2; OQubit (mkQubit name (get_parameters c) (List.length h)
                                     (S (List.length h)) None)]).
Proof.
  unfold new_TunableQubit, alloc. do 2 eexists. simpl.
  rewrite !length_app. simpl. rewrite <- !app_assoc. simpl.
  f_equal; [lia|]. repeat f_equal; lia.
Qed.

Lemma new_ReadoutResonator_eq (h : heap) (name : string) (c : DeviceConfig) :
  exists o1 o2 rr,
    new_ReadoutResonator h name c
    = (S (S (List.length h)), h ++ [o1; o2; OResonator rr]).
Proof.
  unfold new_ReadoutResonator, alloc. do 3 eexists. simpl.
  rewrite !length_app. simpl. rewrite <- !app_assoc. simpl.
  f_equal; lia.
Qed.

(** ** Helper lemmas: the first loop of [_load_devices] *)

Section FirstLoop.

Variable cfg : pydict DeviceConfig.




End FirstLoop.

(** ** Helper lemmas: the second loop of [_load_devices] *)

Lemma heap_set_length (h : heap) (l : loc) (o : Obj) :
  List.length (heap_set h l o) = List.length h.
Proof.
  revert l. induction h as [|o' h IH]; intros [|l]; simpl; auto.
Qed.

Lemma nth_error_heap_set_eq (h : heap) (l : loc) (o : Obj) :
  (l < List.length h)%nat -> nth_error (heap_set h l o) l = Some o.
Proof.
  revert l. induction h as [|o' h IH]; intros [|l] Hl; simpl in *; try lia; auto.
  apply IH. lia.
Qed.

Lemma nth_error_heap_set_neq (h : heap) (l l' : loc) (o : Obj) :
  l <> l' -> nth_error (heap_set h l o) l' = nth_error h l'.
Proof.
  revert l l'. induction h as [|o' h IH]; intros [|l] [|l'] Hne; simpl; auto;
    try congruence; apply IH; congruence.
Qed.

Lemma same_except_readout_refl (o : Obj) : same_except_readout o o.
Proof. destruct o; simpl; auto. Qed.

Lemma heap_agree_refl (h : heap) : heap_agree h h.
Proof.
  intros l. destruct (nth_error h l); [apply same_except_readout_refl|exact I].
Qed.

Lemma heap_agree_set (h0 h : heap) (l : loc) (o0 o : Obj) :
  heap_agree h0 h -> nth_error h0 l = Some o0 -> same_except_readout o0 o ->
  heap_agree h0 (heap_set h l o).
Proof.
  intros Hag H0 Hs l'. destruct (Nat.eq_dec l l') as [<-|Hne].
  - assert (Hl : (l < List.length h)%nat).
    { specialize (Hag l). rewrite H0 in Hag.
      destruct (nth_error h l) eqn:E; [|contradiction].
      apply nth_error_Some. congruence. }
    rewrite H0, nth_error_heap_set_eq by exact Hl. exact Hs.
  - rewrite nth_error_heap_set_neq by exact Hne. apply Hag.
Qed.




(** ** C3 *)





(** A readout name that names another qubit: [resonator.measure_channel] on
    a [TunableQubit] raises [AttributeError]. *)
Lemma load_devices_readout_names_qubit :
  load_devices
    [("q0"%string, mkDeviceConfig (Some "TunableQubit"%string) None
                     (Some [("readout"%string, "q0"%string)]))]
  = Err AttributeError.
Proof. reflexivity. Qed.

(** * Further properties *)

(** ** Helper lemmas: truncation and the closed sample grid *)

Lemma py_int_nonneg (x : R) (z : Z) :
  (0 <= z)%Z -> IZR z <= x < IZR z + 1 -> py_int x = z.
Proof.
  intros Hz Hx. unfold py_int.
  assert (0 <= IZR z) by (apply IZR_le; exact Hz).
  destruct (Rle_dec 0 x) as [_|Hn]; [|lra].
  now apply Int_part_unique.
Qed.

Lemma py_int_small_neg (x : R) : -1 < x < 0 -> py_int x = 0%Z.
Proof.
  intros Hx. unfold py_int.
  destruct (Rle_dec 0 x) as [Hp|_]; [lra|].
  rewrite (Int_part_unique (- x) 0) by (simpl; lra). reflexivity.
Qed.

Lemma py_int_le_minus1 (x : R) : x <= -1 -> (py_int x < 0)%Z.
Proof.
  intros Hx. unfold py_int.
  destruct (Rle_dec 0 x) as [Hp|_]; [lra|].
  destruct (base_Int_part (- x)) as [_ B2].
  assert (Hpos : (0 < Int_part (- x))%Z) by (apply lt_IZR; simpl; lra).
  lia.
Qed.

Lemma linspace_closed_length (stop : R) (n : nat) :
  List.length (linspace_closed stop n) = n.
Proof. unfold linspace_closed. now rewrite length_map, length_seq. Qed.

Lemma linspace_closed_nth (stop : R) (n i : nat) :
  (2 <= n)%nat -> (i < n)%nat ->
  nth i (linspace_closed stop n) 0 = INR i * (stop / INR (n - 1)).
Proof.
  intros Hn Hi. unfold linspace_closed.
  set (f := fun i => if andb (1 <? n)%nat (i =? n - 1)%nat then stop
                     else if (0 <? n - 1)%nat then INR i * (stop / INR (n - 1))
                     else INR i * stop).
  rewrite nth_indep with (d' := f 0%nat)
    by (rewrite length_map, length_seq; exact Hi).
  rewrite map_nth, seq_nth by exact Hi. simpl. unfold f.
  replace (1 <? n)%nat with true by (symmetry; apply Nat.ltb_lt; lia).
  replace (0 <? n - 1)%nat with true by (symmetry; apply Nat.ltb_lt; lia).
  simpl. destruct (Nat.eqb_spec i (n - 1)) as [->|_]; [|reflexivity].
  assert (INR (n - 1) <> 0) by (apply not_0_INR; lia).
  field. exact H.
Qed.

Lemma linspace_closed_one (stop : R) : linspace_closed stop 1 = [0].
Proof. unfold linspace_closed. simpl. f_equal. ring. Qed.

Lemma generate_waveform_ok (op : PulseOperation) (sample_rate : R) (n : Z) :
  py_int (duration op * sample_rate) = n -> (0 <= n)%Z ->
  exists env, generate_waveform_rate op sample_rate
              = Ok (linspace_closed (duration op) (Z.to_nat n), env) /\
    List.length env = Z.to_nat n.
Proof.
  intros Hn Hpos. unfold generate_waveform_rate. rewrite Hn.
  replace (n <? 0)%Z with false by (symmetry; apply Z.ltb_ge; exact Hpos).
  eexists. split; [reflexivity|].
  destruct (String.eqb (shape op) "gaussian").
  - rewrite gaussian_branch_fst, gaussian_samples_length, linspace_closed_length.
    reflexivity.
  - destruct (String.eqb (shape op) "square"); apply repeat_length.
Qed.

(** ** PlottingBackend._generate_waveform *)

(** The number of samples drawn for a pulse is [int(duration * sample_rate)],
    with no lower bound: a product of [-1] or less raises [ValueError], a
    product strictly between [-1] and [1] gives empty arrays, a product in
    [[1, 2)] gives the single time [0]; for [z <= D * R < z + 1] with
    [z >= 0] the time and envelope arrays have [z] samples. *)
Theorem generate_waveform_sample_count (op : PulseOperation) (sample_rate : R) :
  (duration op * sample_rate <= -1 ->
     generate_waveform_rate op sample_rate = Err ValueError) /\
  (-1 < duration op * sample_rate < 1 ->
     generate_waveform_rate op sample_rate = Ok ([], [])) /\
  (1 <= duration op * sample_rate < 2 ->
     exists env, generate_waveform_rate op sample_rate = Ok ([0], env) /\
                 List.length env = 1%nat) /\
  (forall z : Z, (0 <= z)%Z ->
     IZR z <= duration op * sample_rate < IZR z + 1 ->
     exists t env, generate_waveform_rate op sample_rate = Ok (t, env) /\
       List.length t = Z.to_nat z /\ List.length env = Z.to_nat z).
Proof.
  split; [|split; [|split]].
  - intros Hx. unfold generate_waveform_rate.
    apply py_int_le_minus1 in Hx. apply Z.ltb_lt in Hx. now rewrite Hx.
  - intros Hx.
    assert (Hz : py_int (duration op * sample_rate) = 0%Z).
    { destruct (Rle_dec 0 (duration op * sample_rate)).
      - apply py_int_nonneg; [lia|simpl; lra].
      - apply py_int_small_neg; lra. }
    destruct (generate_waveform_ok op sample_rate 0 Hz ltac:(lia)) as [env [E L]].
    rewrite E. destruct env; [reflexivity|discriminate].
  - intros Hx.
    assert (Hz : py_int (duration op * sample_rate) = 1%Z)
      by (apply py_int_nonneg; [lia|simpl; lra]).
    destruct (generate_waveform_ok op sample_rate 1 Hz ltac:(lia)) as [env [E L]].
    exists env. rewrite E. split; [|exact L].
    change (Z.to_nat 1) with 1%nat. now rewrite linspace_closed_one.
  - intros z Hz0 Hx.
    destruct (generate_waveform_ok op sample_rate z (py_int_nonneg _ _ Hz0 Hx) Hz0)
      as [env [E L]].
    exists (linspace_closed (duration op) (Z.to_nat z)), env.
    split; [exact E|]. split; [apply linspace_closed_length|exact L].
Qed.

(** With [n >= 2] samples the time grid of the plot is closed: [t[i] = i *
    D / (n - 1)], from [0] to exactly [D]. *)
Theorem generate_waveform_closed_grid (op : PulseOperation) (sample_rate : R) (z : Z)
  (Hz2 : (2 <= z)%Z)
  (Hz : IZR z <= duration op * sample_rate < IZR z + 1) :
  exists t env, generate_waveform_rate op sample_rate = Ok (t, env) /\
    List.length t = Z.to_nat z /\
    (forall i, (i < Z.to_nat z)%nat ->
       nth i t 0 = INR i * (duration op / INR (Z.to_nat z - 1))) /\
    nth 0 t 0 = 0 /\ nth (Z.to_nat z - 1) t 0 = duration op.
Proof.
  assert (Hz0 : (0 <= z)%Z) by lia.
  destruct (generate_waveform_ok op sample_rate z (py_int_nonneg _ _ Hz0 Hz) Hz0)
    as [env [E _]].
  assert (Hn : (2 <= Z.to_nat z)%nat) by lia.
  exists (linspace_closed (duration op) (Z.to_nat z)), env.
  split; [exact E|]. split; [apply linspace_closed_length|].
  split; [intros i Hi; now apply linspace_closed_nth|].
  split.
  - rewrite linspace_closed_nth by lia. simpl. ring.
  - rewrite linspace_closed_nth by lia.
    assert (INR (Z.to_nat z - 1) <> 0) by (apply not_0_INR; lia).
    field. exact H.
Qed.

Lemma generate_waveform_closed_grid_witness :
  let op := mkPulse "q0.z" 100e-9 0.1 0 0 "square" in
  ((2 <= 100)%Z /\ IZR 100 <= duration op * 1e9 < IZR 100 + 1) /\
  exists t env, generate_waveform_rate op 1e9 = Ok (t, env) /\
    List.length t = Z.to_nat 100 /\
    (forall i, (i < Z.to_nat 100)%nat ->
       nth i t 0 = INR i * (duration op / INR (Z.to_nat 100 - 1))) /\
    nth 0 t 0 = 0 /\ nth (Z.to_nat 100 - 1) t 0 = duration op.
Proof.
  intros op.
  assert (H : (2 <= 100)%Z /\ IZR 100 <= duration op * 1e9 < IZR 100 + 1)
    by (split; [lia|unfold op; simpl; lra]).
  split; [exact H|].
  destruct H as [H1 H2]. exact (generate_waveform_closed_grid op 1e9 100 H1 H2).
Defined.

(** ** PlottingBackend.execute *)

Lemma plot_operations_shift (ops : list Operation) :
  forall c d, plot_operations (c + d) ops
              = (cs <- plot_operations c ops ;; Ok (map (shift_plot d) cs)).
Proof.
  induction ops as [|op ops IH]; intros c d; [reflexivity|].
  destruct op as [p|dl|path itime]; cbn [plot_operations].
  - destruct (generate_waveform p) as [[t env]|e]; [|reflexivity]. cbn [bind].
    replace (c + d + duration p) with (c + duration p + d) by ring.
    rewrite IH. destruct (plot_operations (c + duration p) ops) as [rest|e];
      [|reflexivity]. cbn [bind].
    assert (Ht : map (fun x => x + (c + d)) t
                 = map (fun x => x + d) (map (fun x => x + c) t)).
    { rewrite map_map. apply map_ext. intros x. ring. }
    destruct (pulse_axis (channel_path p)); cbn [map]; unfold shift_plot; cbn; try rewrite Ht; try reflexivity.
  - replace (c + d + dl) with (c + dl + d) by ring. apply IH.
  - destruct (generate_waveform (mkPulse path itime 0.2 0 0 "square"))
      as [[t env]|e]; [|reflexivity]. cbn [bind].
    replace (c + d + itime) with (c + itime + d) by ring.
    rewrite IH. destruct (plot_operations (c + itime) ops) as [rest|e];
      [|reflexivity]. cbn [bind map].
    assert (Ht : map (fun x => x + (c + d)) t
                 = map (fun x => x + d) (map (fun x => x + c) t)).
    { rewrite map_map. apply map_ext. intros x. ring. }
    rewrite Ht. reflexivity.
Qed.

Lemma plot_operations_app (pre : list Operation) :
  forall c post, plot_operations c (pre ++ post)
    = (a <- plot_operations c pre ;;
       b <- plot_operations (c + total_duration pre) post ;;
       Ok (a ++ b)).
Proof.
  induction pre as [|op pre IH]; intros c post.
  - cbn. rewrite Rplus_0_r. destruct (plot_operations c post); reflexivity.
  - destruct op as [p|dl|path itime]; cbn [app plot_operations total_duration
      fold_right op_duration].
    + destruct (generate_waveform p) as [[t env]|e]; [|reflexivity]. cbn [bind].
      rewrite IH. fold (total_duration pre). rewrite <- Rplus_assoc.
      destruct (plot_operations (c + duration p) pre) as [rest|e]; [|reflexivity].
      cbn [bind].
      destruct (plot_operations (c + duration p + total_duration pre) post);
        [|reflexivity].
      destruct (pulse_axis (channel_path p)); reflexivity.
    + rewrite IH. fold (total_duration pre). now rewrite <- Rplus_assoc.
    + destruct (generate_waveform (mkPulse path itime 0.2 0 0 "square"))
        as [[t env]|e]; [|reflexivity]. cbn [bind].
      rewrite IH. fold (total_duration pre). rewrite <- Rplus_assoc.
      destruct (plot_operations (c + itime) pre) as [rest|e]; [|reflexivity].
      cbn [bind].
      destruct (plot_operations (c + itime + total_duration pre) post); reflexivity.
Qed.

(** Plotting a sequence [pre ++ post] makes the plot calls of [pre] followed
    by those of [post] plotted alone, each moved later by the total duration
    of [pre] (pulse durations, delays and measurement integration times);
    an error of either part is the error of the whole. *)
Theorem plotting_execute_app (pre post : list Operation) :
  plotting_execute (pre ++ post)
  = (a <- plotting_execute pre ;;
     b <- plotting_execute post ;;
     Ok (a ++ map (shift_plot (total_duration pre)) b)).
Proof.
  unfold plotting_execute. rewrite plot_operations_app.
  destruct (plot_operations 0 pre) as [a|e]; [|reflexivity]. cbn [bind].
  rewrite <- (Rplus_0_l (0 + total_duration pre)), Rplus_0_l.
  rewrite plot_operations_shift.
  destruct (plot_operations 0 post); reflexivity.
Qed.

(** ** Helper lemmas: substrings of channel paths *)

Lemma str_in_empty (sub : string) : sub <> EmptyString -> str_in sub EmptyString = false.
Proof. destruct sub; [congruence|reflexivity]. Qed.

Ltac destruct_ascii_dec :=
  match goal with |- context [Ascii.ascii_dec ?x ?y] => destruct (Ascii.ascii_dec x y) end.

(** A one-character substring lies on one side of a concatenation. *)
Lemma str_in_char_app (a : Ascii.ascii) (n s : string) :
  str_in (String a EmptyString) (n ++ s)%string
  = str_in (String a EmptyString) n || str_in (String a EmptyString) s.
Proof.
  induction n as [|c n IH]; [reflexivity|]. cbn [String.append].
  change (str_in (String a EmptyString) (String c (n ++ s)%string))
    with (String.prefix (String a EmptyString) (String c (n ++ s)%string)
          || str_in (String a EmptyString) (n ++ s)%string).
  change (str_in (String a EmptyString) (String c n))
    with (String.prefix (String a EmptyString) (String c n)
          || str_in (String a EmptyString) n).
  rewrite IH, orb_assoc. f_equal. f_equal. cbn [String.prefix].
  destruct (Ascii.ascii_dec a c); [|reflexivity].
  destruct n; [destruct s|]; reflexivity.
Qed.

(** ["xy"] does not straddle the end of [n] when [s] does not start with
    ["y"]. *)
Lemma str_in_xy_app (n s : string) :
  str_in "xy" s = false -> String.prefix "y" s = false ->
  str_in "xy" (n ++ s)%string = str_in "xy" n.
Proof.
  intros Hs Hy. induction n as [|c n IH]; [exact Hs|]. cbn [String.append].
  change (str_in "xy" (String c (n ++ s)%string))
    with (String.prefix "xy" (String c (n ++ s)%string) || str_in "xy" (n ++ s)%string).
  change (str_in "xy" (String c n))
    with (String.prefix "xy" (String c n) || str_in "xy" n).
  rewrite IH. f_equal.
  destruct n as [|c' n].
  - cbn [String.append String.prefix]. destruct_ascii_dec; [|reflexivity].
    exact Hy.
  - cbn [String.append String.prefix]. destruct_ascii_dec; [|reflexivity].
    destruct_ascii_dec; [|reflexivity].
    destruct n; [destruct s|]; reflexivity.
Qed.

Lemma string_app_nil (s : string) : (s ++ EmptyString)%string = s.
Proof. induction s as [|c s IH]; simpl; [reflexivity|now rewrite IH]. Qed.

Lemma str_in_suffix (n : string) (c : Ascii.ascii) (sub : string) :
  str_in sub (n ++ String c sub)%string = true.
Proof.
  apply str_in_spec. exists (n ++ String c EmptyString)%string, EmptyString.
  rewrite string_app_nil.
  induction n as [|c' n IH]; simpl; [reflexivity|now rewrite <- IH].
Qed.

Lemma str_in_xy_dot_z (n : string) : str_in "xy" (n ++ ".z")%string = str_in "xy" n.
Proof. apply str_in_xy_app; reflexivity. Qed.

Lemma str_in_xy_dot_drive (n : string) :
  str_in "xy" (n ++ ".drive")%string = str_in "xy" n.
Proof. apply str_in_xy_app; reflexivity. Qed.

Lemma str_in_z_dot_drive (n : string) :
  str_in "z" (n ++ ".drive")%string = str_in "z" n.
Proof. rewrite str_in_char_app. now rewrite orb_false_r. Qed.

(** ** PlottingBackend.execute: the axis of a device's pulse *)

(** A pulse on a qubit's XY channel [n.xy] is drawn on the XY axis; a pulse
    on a qubit's Z channel [n.z] on the Z axis, unless the name [n] contains
    ["xy"]; a pulse on a resonator's drive channel [n.drive] on the readout
    axis, unless [n] contains ["xy"] (XY axis) or ["z"] (Z axis). *)
Theorem plotting_device_axes (n : string) (p : PulseOperation) (t env : list R)
  (Hw : generate_waveform p = Ok (t, env)) :
  let drawn ax := Ok [mkPlot ax (map (fun x => x + 0) t) env (channel_path p) false] in
  (channel_path p = (n ++ ".xy")%string ->
     plotting_execute [OpPulse p] = drawn 0%nat) /\
  (channel_path p = (n ++ ".z")%string ->
     plotting_execute [OpPulse p] = drawn (if str_in "xy" n then 0%nat else 1%nat)) /\
  (channel_path p = (n ++ ".drive")%string ->
     plotting_execute [OpPulse p]
     = drawn (if str_in "xy" n then 0%nat else if str_in "z" n then 1%nat else 2%nat)).
Proof.
  intros drawn. unfold drawn, plotting_execute. cbn [plot_operations].
  rewrite Hw. cbn [bind]. unfold pulse_axis.
  split; [|split]; intros Hp; rewrite Hp.
  - now rewrite str_in_suffix.
  - rewrite str_in_xy_dot_z. destruct (str_in "xy" n); [reflexivity|].
    now rewrite str_in_suffix.
  - rewrite str_in_xy_dot_drive, str_in_z_dot_drive.
    destruct (str_in "xy" n); [reflexivity|].
    destruct (str_in "z" n); [reflexivity|].
    now rewrite str_in_suffix.
Qed.

Lemma generate_waveform_z_default :
  generate_waveform (z_play_pulse "q0.z" 0.1 100e-9)
  = Ok (linspace_closed 100e-9 100, repeat 0.1 100).
Proof.
  unfold generate_waveform, generate_waveform_rate, default_sample_rate.
  rewrite (py_int_nonneg _ 100) by (simpl; lra || lia). reflexivity.
Qed.

Lemma plotting_device_axes_witness :
  let p := z_play_pulse "q0.z" 0.1 100e-9 in
  let t := linspace_closed 100e-9 100 in
  let env := repeat 0.1 100 in
  generate_waveform p = Ok (t, env) /\
  plotting_execute [OpPulse p]
  = Ok [mkPlot 1 (map (fun x => x + 0) t) env (channel_path p) false].
Proof.
  intros p t env. split; [exact generate_waveform_z_default|].
  exact (proj1 (proj2 (plotting_device_axes "q0" p t env generate_waveform_z_default))
           eq_refl).
Defined.

(** ** QuTiPSimulationBackend.execute and Z pulses *)

Lemma first_xy_pulse_skip (pre post : list Operation) (p : PulseOperation) :
  str_in "xy" (channel_path p) = false ->
  first_xy_pulse (pre ++ OpPulse p :: post) = first_xy_pulse (pre ++ post).
Proof.
  intros Hp. induction pre as [|o pre IH]; simpl.
  - now rewrite Hp.
  - destruct o as [q| |]; [|exact IH|exact IH].
    destruct (str_in "xy" (channel_path q)); [reflexivity|exact IH].
Qed.

(** A pulse played on the Z channel [n.z] of a qubit whose name contains no
    ["xy"] is ignored by the simulation backend wherever it stands in the
    sequence; when the name contains ["xy"], the Z pulse (a square pulse) is
    the one simulated if no pulse before it names an XY channel. *)
Theorem sim_execute_z_pulse (mesolve_expect : (R -> R) -> list R -> list R)
  (system : System) (n : string) (amp d : R) (pre post : list Operation) :
  let zp := z_play_pulse (n ++ ".z") amp d in
  (str_in "xy" n = false ->
     sim_execute mesolve_expect system (pre ++ OpPulse zp :: post)
     = sim_execute mesolve_expect system (pre ++ post)) /\
  (str_in "xy" n = true ->
     (forall q, In (OpPulse q) pre -> ~ identifies_xy (channel_path q)) ->
     sim_execute mesolve_expect system (pre ++ OpPulse zp :: post)
     = sim_execute mesolve_expect system [OpPulse zp]).
Proof.
  intros zp. split.
  - intros Hn. unfold sim_execute. rewrite first_xy_pulse_skip; [reflexivity|].
    simpl. now rewrite str_in_xy_dot_z.
  - intros Hn Hpre. unfold sim_execute.
    rewrite first_xy_pulse_app; [|exact Hpre|].
    + simpl. rewrite str_in_xy_dot_z, Hn. reflexivity.
    + apply str_in_spec. simpl. rewrite str_in_xy_dot_z. exact Hn.
Qed.

(** ** Helper lemmas: interpolation on the time grid *)

Lemma interp_aux_start (x1 y1 : R) (xs ys : list R) :
  StronglySorted Rlt (x1 :: xs) -> interp_aux x1 x1 y1 xs ys = y1.
Proof.
  intros Hs. destruct xs as [|x2 xs]; [reflexivity|]. destruct ys as [|y2 ys];
    [reflexivity|].
  apply StronglySorted_inv in Hs as [_ Hf]. inversion Hf as [|? ? Hlt _]; subst.
  simpl. destruct (Rlt_dec x1 x2) as [_|Hn]; [|contradiction].
  unfold Rminus. rewrite Rplus_opp_r. ring.
Qed.

Lemma interp_aux_grid (xs : list R) :
  forall (x0 y0 : R) (ys : list R) (k : nat),
  StronglySorted Rlt xs -> Forall (Rlt x0) xs ->
  List.length ys = List.length xs -> (k < List.length xs)%nat ->
  interp_aux (nth k xs 0) x0 y0 xs ys = nth k ys 0.
Proof.
  induction xs as [|x1 xs IH]; intros x0 y0 ys k Hs Hf Hl Hk; [simpl in Hk; lia|].
  destruct ys as [|y1 ys]; [discriminate|]. simpl in Hl. injection Hl as Hl.
  pose proof Hs as Hs'. apply StronglySorted_inv in Hs' as [Hs1 Hf1].
  inversion Hf as [|? ? Hx01 _]; subst.
  destruct k as [|k].
  - simpl. destruct (Rlt_dec x1 x1) as [Hc|_]; [lra|].
    now apply interp_aux_start.
  - simpl in Hk |- *.
    assert (Hin : In (nth k xs 0) xs) by (apply nth_In; lia).
    assert (Hgt : x1 < nth k xs 0)
      by (rewrite Forall_forall in Hf1; now apply Hf1).
    destruct (Rlt_dec (nth k xs 0) x1) as [Hc|_]; [lra|].
    apply IH; [exact Hs1|exact Hf1|exact Hl|lia].
Qed.

Lemma interp_grid_samples (xp fp : list R) (k : nat) :
  StronglySorted Rlt xp -> List.length fp = List.length xp ->
  (k < List.length xp)%nat -> interp_grid (nth k xp 0) xp fp = nth k fp 0.
Proof.
  intros Hs Hl Hk. destruct xp as [|x0 xs]; [simpl in Hk; lia|].
  destruct fp as [|y0 ys]; [discriminate|]. simpl in Hl. injection Hl as Hl.
  pose proof Hs as Hs'. apply StronglySorted_inv in Hs' as [Hs1 Hf1].
  destruct k as [|k].
  - simpl. destruct (Rle_dec x0 x0) as [_|Hn]; [reflexivity|lra].
  - simpl in Hk |- *.
    assert (Hin : In (nth k xs 0) xs) by (apply nth_In; lia).
    assert (Hgt : x0 < nth k xs 0)
      by (rewrite Forall_forall in Hf1; now apply Hf1).
    destruct (Rle_dec (nth k xs 0) x0) as [Hc|_]; [lra|].
    apply interp_aux_grid; [exact Hs1|exact Hf1|exact Hl|lia].
Qed.

Lemma drive_of_grid (env t : list R) :
  StronglySorted Rlt t -> List.length t = List.length env ->
  map (drive_of env t) t = angular_envelope env.
Proof.
  intros Hs Hl. apply nth_ext with (d := 0) (d' := 0).
  - unfold angular_envelope. now rewrite !length_map.
  - intros k Hk. rewrite length_map in Hk.
    rewrite (nth_indep (map (drive_of env t) t) 0 (drive_of env t 0))
      by (now rewrite length_map).
    rewrite map_nth. unfold drive_of. apply interp_grid_samples; [exact Hs| |exact Hk].
    unfold angular_envelope. rewrite !length_map. lia.
Qed.

Lemma seq_map_sorted (f : nat -> R) (len : nat) :
  forall start, (forall i j, (i < j)%nat -> f i < f j) ->
  StronglySorted Rlt (map f (seq start len)).
Proof.
  induction len as [|len IH]; intros start Hf; simpl; constructor.
  - now apply IH.
  - apply Forall_forall. intros y Hy. apply in_map_iff in Hy as [j [<- Hj]].
    apply in_seq in Hj. apply Hf. lia.
Qed.

Lemma linspace_open_sorted (stop : R) (n : nat) :
  0 < stop -> StronglySorted Rlt (linspace_open stop n).
Proof.
  intros Hstop. destruct n as [|n]; [constructor|].
  unfold linspace_open. apply seq_map_sorted.
  intros i j Hij. apply Rmult_lt_compat_r.
  - apply Rdiv_lt_0_compat; [exact Hstop|apply lt_0_INR; lia].
  - now apply lt_INR.
Qed.

(** ** Helper lemmas: the exact solver from the ground state *)

(** The state [cos(phi/2)|0> - i sin(phi/2)|1>] rotated by [theta]. *)
Lemma rotate_x_phase (phi theta : R) :
  rotate_x theta (mkQ (cos (phi / 2)) 0 0 (- sin (phi / 2)))
  = mkQ (cos ((phi + theta) / 2)) 0 0 (- sin ((phi + theta) / 2)).
Proof.
  unfold rotate_x. cbn [q_ar q_ai q_br q_bi].
  replace ((phi + theta) / 2) with (phi / 2 + theta / 2) by field.
  rewrite cos_plus, sin_plus. f_equal; ring.
Qed.

Lemma final_state_phase (f : R -> R) (ts : list R) :
  forall t0 phi,
  final_state f t0 ts (mkQ (cos (phi / 2)) 0 0 (- sin (phi / 2)))
  = mkQ (cos ((phi + pulse_area (t0 :: ts) (map f (t0 :: ts))) / 2)) 0 0
        (- sin ((phi + pulse_area (t0 :: ts) (map f (t0 :: ts))) / 2)).
Proof.
  induction ts as [|t1 ts IH]; intros t0 phi.
  - simpl. now rewrite Rplus_0_r.
  - cbn [final_state]. rewrite rotate_x_phase, IH.
    cbn [map pulse_area]. rewrite Rplus_assoc. reflexivity.
Qed.

Lemma simulate_exact_area (env t : list R) (p : pydict PyVal) :
  params_well_formed p -> List.length t = List.length env ->
  StronglySorted Rlt t -> t <> [] ->
  simulate_qubit_evolution mesolve_exact env t p
  = Ok (sin (pulse_area t (angular_envelope env) / 2) ^ 2).
Proof.
  intros Hwf Hl Hs Hne.
  destruct (parse_frequency_ok p Hwf) as [r Hr].
  rewrite (simulate_after_parse _ _ _ _ _ Hr), simulate_equal_lengths by assumption.
  destruct t as [|t0 ts]; [congruence|].
  unfold mesolve_exact, py_last. rewrite evolve_last.
  replace ground with (mkQ (cos (0 / 2)) 0 0 (- sin (0 / 2)))
    by (unfold ground; unfold Rdiv; rewrite Rmult_0_l, cos_0, sin_0; f_equal; ring).
  rewrite final_state_phase, drive_of_grid by assumption.
  unfold excited_pop. cbn [q_br q_bi]. rewrite Rplus_0_l. f_equal. ring.
Qed.

(** ** physics_simulator.py: the drive and the exact solution *)

(** On a strictly increasing time grid, the drive handed to the solver takes
    at each sample time [t[k]] exactly the value [2 * pi * (envelope[k] *
    25e6)]: [np.interp] reproduces the converted samples. *)
Theorem simulate_drive_at_samples (env t : list R)
  (Hs : StronglySorted Rlt t) (Hl : List.length t = List.length env) :
  forall k, (k < List.length t)%nat ->
  drive_of env t (nth k t 0) = 2 * PI * (nth k env 0 * VOLT_TO_RABI_HERTZ).
Proof.
  intros k Hk. unfold drive_of.
  rewrite interp_grid_samples; [|exact Hs|rewrite !length_map; lia|exact Hk].
  rewrite (nth_indep _ 0 (2 * PI * 0)) by (rewrite !length_map; lia).
  rewrite (map_nth (fun w => 2 * PI * w)).
  rewrite (nth_indep _ 0 (0 * VOLT_TO_RABI_HERTZ)) by (rewrite length_map; lia).
  rewrite (map_nth (fun a => a * VOLT_TO_RABI_HERTZ)). reflexivity.
Qed.

Lemma simulate_drive_at_samples_witness :
  (StronglySorted Rlt [0; 1e-9] /\ List.length [0; 1e-9] = List.length [0.5; 0.25]) /\
  drive_of [0.5; 0.25] [0; 1e-9] (nth 1 [0; 1e-9] 0)
  = 2 * PI * (nth 1 [0.5; 0.25] 0 * VOLT_TO_RABI_HERTZ).
Proof.
  assert (Hs : StronglySorted Rlt [0; 1e-9]).
  { repeat constructor. lra. }
  split; [split; [exact Hs|reflexivity]|].
  exact (simulate_drive_at_samples [0.5; 0.25] [0; 1e-9] Hs eq_refl 1%nat
           ltac:(simpl; lia)).
Defined.

(** With the exact solver, for well-formed parameters and a nonempty,
    strictly increasing time grid as long as the envelope, the simulation
    returns [sin(theta / 2)^2], where [theta] is the trapezoid integral over
    the grid of the angular drive [2 * pi * 25e6 * envelope]. *)
Theorem simulate_exact_rotation (env t : list R) (p : pydict PyVal)
  (Hwf : params_well_formed p) (Hl : List.length t = List.length env)
  (Hs : StronglySorted Rlt t) (Hne : t <> []) :
  simulate_qubit_evolution mesolve_exact env t p
  = Ok (sin (pulse_area t (angular_envelope env) / 2) ^ 2).
Proof. exact (simulate_exact_area env t p Hwf Hl Hs Hne). Qed.

Lemma simulate_exact_rotation_witness :
  (params_well_formed [] /\ List.length [0; 1e-9] = List.length [1; 1] /\
   StronglySorted Rlt [0; 1e-9] /\ [0; 1e-9] <> []) /\
  simulate_qubit_evolution mesolve_exact [1; 1] [0; 1e-9] []
  = Ok (sin (pulse_area [0; 1e-9] (angular_envelope [1; 1]) / 2) ^ 2).
Proof.
  assert (Hs : StronglySorted Rlt [0; 1e-9]).
  { repeat constructor. lra. }
  assert (Hne : [0; 1e-9] <> []) by discriminate.
  split; [split; [exact I|split; [reflexivity|split; [exact Hs|exact Hne]]]|].
  exact (simulate_exact_rotation [1; 1] [0; 1e-9] [] I eq_refl Hs Hne).
Defined.

(** ** Helper lemmas: the Rabi sequence *)

Lemma gaussian_samples_scale (amp center sigma : R) (t : list R) :
  fst (gaussian_samples amp center sigma t)
  = map (fun x => amp * x) (fst (gaussian_samples 1 center sigma t)).
Proof.
  induction t as [|ti t IH]; [reflexivity|].
  rewrite !gaussian_samples_cons, IH. simpl. f_equal. ring.
Qed.

Lemma angular_envelope_scale (a : R) (env : list R) :
  angular_envelope (map (fun x => a * x) env)
  = map (fun w => a * w) (angular_envelope env).
Proof.
  unfold angular_envelope. rewrite !map_map. apply map_ext. intros x. ring.
Qed.

Lemma pulse_area_scale (a : R) (t : list R) :
  forall ws, pulse_area t (map (fun w => a * w) ws) = a * pulse_area t ws.
Proof.
  induction t as [|t0 t IH]; intros ws; [simpl; ring|].
  destruct t as [|t1 t]; [destruct ws as [|w0 [|w1 ws]]; simpl; ring|].
  destruct ws as [|w0 [|w1 ws]]; [simpl; ring|simpl; ring|].
  change (pulse_area (t0 :: t1 :: t) (map (fun w => a * w) (w0 :: w1 :: ws)))
    with ((t1 - t0) * (a * w0 + a * w1) / 2
          + pulse_area (t1 :: t) (map (fun w => a * w) (w1 :: ws))).
  rewrite IH. simpl. field.
Qed.

Lemma py_int_40ns : py_int (40e-9 * 1e9) = 40%Z.
Proof. apply py_int_nonneg; [lia|simpl; lra]. Qed.

(** The default XY pulse: 40 samples over 40 ns, a gaussian of amplitude
    [amp]. *)
Lemma pulse_to_waveform_xy_default (path : string) (amp : R) :
  pulse_to_waveform (xy_play_pulse path amp 40e-9)
  = (linspace_open 40e-9 40,
     map (fun x => amp * x)
       (fst (gaussian_samples 1 (40e-9 / 2) (40e-9 / 4) (linspace_open 40e-9 40)))).
Proof.
  unfold pulse_to_waveform, pulse_to_waveform_rate, default_sample_rate.
  cbn [duration shape amplitude xy_play_pulse]. rewrite py_int_40ns.
  change (Z.to_nat (Z.max 40 2)) with 40%nat. simpl String.eqb. cbv iota beta.
  f_equal. rewrite gaussian_branch_fst. cbn [duration amplitude].
  apply gaussian_samples_scale.
Qed.

Lemma rabi_run (system : System) (q : TunableQubit) (rest : list TunableQubit)
  (path_xy path_ro : string) (lr : loc) (itime amp : R) {A : Type}
  (execute : list Operation -> result A) :
  get_qubit_instances system = q :: rest ->
  nth_error (sys_heap system) (tq_xy q) = Some (OChannel (mkChannel KXYChannel path_xy)) ->
  tq_readout q = Some lr ->
  nth_error (sys_heap system) lr
  = Some (OChannel (mkChannel (KReadoutChannel (PyFloat itime)) path_ro)) ->
  run (rabi_make_sequence system amp) execute
  = execute [OpPulse (xy_play_pulse path_xy amp 40e-9); OpMeasure path_ro itime].
Proof.
  intros Hq Hxy Hro Hrc.
  unfold run, rabi_make_sequence, builder_bind, builder_lift, py_first.
  rewrite Hq. unfold deref_channel. rewrite Hxy, Hro, Hrc. reflexivity.
Qed.

(** ** experiments/rabi.py: RabiExperiment *)

(** When the first [TunableQubit] of the system has its XY channel and a
    linked readout channel (with a numeric integration time), running the
    Rabi experiment at [amp] hands the backend exactly two operations: a
    gaussian pulse of amplitude [amp] and 40 ns on the qubit's XY channel,
    then a measurement on the readout channel with its integration time. *)
Theorem rabi_sequence (system : System) (q : TunableQubit) (rest : list TunableQubit)
  (path_xy path_ro : string) (lr : loc) (itime : R)
  (Hq : get_qubit_instances system = q :: rest)
  (Hxy : nth_error (sys_heap system) (tq_xy q)
         = Some (OChannel (mkChannel KXYChannel path_xy)))
  (Hro : tq_readout q = Some lr)
  (Hrc : nth_error (sys_heap system) lr
         = Some (OChannel (mkChannel (KReadoutChannel (PyFloat itime)) path_ro))) :
  forall (amp : R) (A : Type) (execute : list Operation -> result A),
  run (rabi_make_sequence system amp) execute
  = execute [OpPulse (mkPulse path_xy 40e-9 amp 0 0 "gaussian");
             OpMeasure path_ro itime].
Proof.
  intros amp A execute. exact (rabi_run system q rest path_xy path_ro lr itime amp
                                 execute Hq Hxy Hro Hrc).
Qed.

Lemma rabi_sequence_witness :
  let cfg := [("q0"%string, mkDeviceConfig (Some "TunableQubit"%string)
                  (Some [("frequency"%string, PyFloat 5e9)])
                  (Some [("readout"%string, "r0"%string)]));
              ("r0"%string, mkDeviceConfig (Some "ReadoutResonator"%string)
                  (Some [("integration_time"%string, PyFloat 2e-6)]) None)] in
  let q := mkQubit "q0" [("frequency"%string, PyFloat 5e9)] 0%nat 1%nat (Some 4%nat) in
  let system := mkSystem cfg
    [OChannel (mkChannel KXYChannel "q0.xy"); OChannel (mkChannel KZChannel "q0.z");
     OQubit q; OChannel (mkChannel KXYChannel "r0.drive");
     OChannel (mkChannel (KReadoutChannel (PyFloat 2e-6)) "r0.measure");
     OResonator (mkResonator "r0" [("integration_time"%string, PyFloat 2e-6)] 3%nat 4%nat)]
    [("q0"%string, 2%nat); ("r0"%string, 5%nat)] in
  load_devices cfg = Ok system /\
  (get_qubit_instances system = [q] /\
   nth_error (sys_heap system) (tq_xy q)
   = Some (OChannel (mkChannel KXYChannel "q0.xy")) /\
   tq_readout q = Some 4%nat /\
   nth_error (sys_heap system) 4%nat
   = Some (OChannel (mkChannel (KReadoutChannel (PyFloat 2e-6)) "r0.measure"))) /\
  run (rabi_make_sequence system 0.5) (fun ops => Ok ops)
  = Ok [OpPulse (mkPulse "q0.xy" 40e-9 0.5 0 0 "gaussian"); OpMeasure "r0.measure" 2e-6].
Proof.
  intros cfg q system.
  split; [reflexivity|]. split; [split; [reflexivity|split; [reflexivity|split;
    reflexivity]]|].
  exact (rabi_sequence system q [] "q0.xy" "r0.measure" 4%nat 2e-6 eq_refl eq_refl eq_refl
           eq_refl 0.5 (list Operation) (fun ops => Ok ops)).
Defined.

(** The Rabi experiment raises [IndexError] when the system has no
    [TunableQubit], and [AttributeError] when the first qubit's readout was
    never linked ([None.measure()]); the backend is not called. *)
Theorem rabi_sequence_errors (system : System) :
  (get_qubit_instances system = [] ->
     forall (amp : R) (A : Type) (execute : list Operation -> result A),
     run (rabi_make_sequence system amp) execute = Err IndexError) /\
  (forall q rest path_xy,
     get_qubit_instances system = q :: rest ->
     nth_error (sys_heap system) (tq_xy q)
     = Some (OChannel (mkChannel KXYChannel path_xy)) ->
     tq_readout q = None ->
     forall (amp : R) (A : Type) (execute : list Operation -> result A),
     run (rabi_make_sequence system amp) execute = Err AttributeError).
Proof.
  split.
  - intros Hq amp A execute.
    unfold run, rabi_make_sequence, builder_bind, builder_lift, py_first.
    now rewrite Hq.
  - intros q rest path_xy Hq Hxy Hro amp A execute.
    unfold run, rabi_make_sequence, builder_bind, builder_lift, py_first.
    rewrite Hq. unfold deref_channel. rewrite Hxy, Hro. reflexivity.
Qed.

(** With the exact solver, the simulation backend turns the Rabi sweep into
    a Rabi oscillation: for a first qubit as in [rabi_sequence] whose XY path
    contains ["xy"] and whose parameters are well formed, the excited
    population at amplitude [amp] is [sin(amp * K / 2)^2], [K] being the
    pulse area of the default pulse at amplitude 1; in particular it is [0]
    at amplitude 0. *)
Theorem rabi_exact_oscillation (system : System) (q : TunableQubit)
  (rest : list TunableQubit) (path_xy path_ro : string) (lr : loc) (itime : R)
  (Hq : get_qubit_instances system = q :: rest)
  (Hxy : nth_error (sys_heap system) (tq_xy q)
         = Some (OChannel (mkChannel KXYChannel path_xy)))
  (Hro : tq_readout q = Some lr)
  (Hrc : nth_error (sys_heap system) lr
         = Some (OChannel (mkChannel (KReadoutChannel (PyFloat itime)) path_ro)))
  (Hpath : identifies_xy path_xy) (Hwf : params_well_formed (tq_parameters q)) :
  let w1 := pulse_to_waveform (xy_play_pulse path_xy 1 40e-9) in
  let K := pulse_area (fst w1) (angular_envelope (snd w1)) in
  forall amp : R,
  run (rabi_make_sequence system amp) (sim_execute mesolve_exact system)
  = Ok (sin (amp * K / 2) ^ 2).
Proof.
  intros w1 K amp. rewrite (rabi_run system q rest path_xy path_ro lr itime amp
                              _ Hq Hxy Hro Hrc).
  unfold sim_execute. cbn [first_xy_pulse xy_play_pulse channel_path].
  apply str_in_spec in Hpath. rewrite Hpath.
  change (mkPulse path_xy 40e-9 amp 0 0 "gaussian") with (xy_play_pulse path_xy amp 40e-9).
  rewrite pulse_to_waveform_xy_default, Hq.
  set (g := fst (gaussian_samples 1 (40e-9 / 2) (40e-9 / 4) (linspace_open 40e-9 40))).
  rewrite simulate_exact_area.
  - unfold K, w1. rewrite pulse_to_waveform_xy_default. cbn [fst snd]. fold g.
    rewrite !angular_envelope_scale, !pulse_area_scale. now rewrite Rmult_1_l.
  - exact Hwf.
  - unfold g. rewrite length_map, gaussian_samples_length. reflexivity.
  - apply linspace_open_sorted. lra.
  - unfold linspace_open. simpl. discriminate.
Qed.

Lemma rabi_exact_oscillation_witness :
  let cfg := [("q0"%string, mkDeviceConfig (Some "TunableQubit"%string)
                  (Some [("frequency"%string, PyFloat 5e9)])
                  (Some [("readout"%string, "r0"%string)]));
              ("r0"%string, mkDeviceConfig (Some "ReadoutResonator"%string)
                  (Some [("integration_time"%string, PyFloat 2e-6)]) None)] in
  let q := mkQubit "q0" [("frequency"%string, PyFloat 5e9)] 0%nat 1%nat (Some 4%nat) in
  let system := mkSystem cfg
    [OChannel (mkChannel KXYChannel "q0.xy"); OChannel (mkChannel KZChannel "q0.z");
     OQubit q; OChannel (mkChannel KXYChannel "r0.drive");
     OChannel (mkChannel (KReadoutChannel (PyFloat 2e-6)) "r0.measure");
     OResonator (mkResonator "r0" [("integration_time"%string, PyFloat 2e-6)] 3%nat 4%nat)]
    [("q0"%string, 2%nat); ("r0"%string, 5%nat)] in
  let w1 := pulse_to_waveform (xy_play_pulse "q0.xy" 1 40e-9) in
  let K := pulse_area (fst w1) (angular_envelope (snd w1)) in
  load_devices cfg = Ok system /\
  (get_qubit_instances system = [q] /\
   nth_error (sys_heap system) (tq_xy q)
   = Some (OChannel (mkChannel KXYChannel "q0.xy")) /\
   tq_readout q = Some 4%nat /\
   nth_error (sys_heap system) 4%nat
   = Some (OChannel (mkChannel (KReadoutChannel (PyFloat 2e-6)) "r0.measure")) /\
   identifies_xy "q0.xy" /\ params_well_formed (tq_parameters q)) /\
  run (rabi_make_sequence system 0) (sim_execute mesolve_exact system)
  = Ok (sin (0 * K / 2) ^ 2).
Proof.
  intros cfg q system w1 K.
  assert (Hpath : identifies_xy "q0.xy") by (exists "q0."%string, EmptyString; reflexivity).
  assert (Hwf : params_well_formed (tq_parameters q))
    by (left; exists 5e9; reflexivity).
  split; [reflexivity|].
  split; [split; [reflexivity|split; [reflexivity|split; [reflexivity|
    split; [reflexivity|split; [exact Hpath|exact Hwf]]]]]|].
  exact (rabi_exact_oscillation system q [] "q0.xy" "r0.measure" 4%nat 2e-6
           eq_refl eq_refl eq_refl eq_refl Hpath Hwf 0).
Defined.

(** ** Helper lemmas: the qubits of the constructed system *)

Lemma qubits_of_app (h : heap) (ls1 ls2 : list loc) :
  qubits_of h (ls1 ++ ls2) = qubits_of h ls1 ++ qubits_of h ls2.
Proof.
  induction ls1 as [|l ls1 IH]; [reflexivity|]. simpl.
  destruct (nth_error h l) as [[c|q|r]|]; rewrite ?IH; reflexivity.
Qed.

Lemma qubits_of_extend (h ext : heap) (ls : list loc) :
  (forall l, In l ls -> (l < List.length h)%nat) ->
  qubits_of (h ++ ext) ls = qubits_of h ls.
Proof.
  induction ls as [|l ls IH]; intros Hl; [reflexivity|]. simpl.
  rewrite nth_error_app1 by (apply Hl; now left).
  rewrite IH by (intros l' H; apply Hl; now right). reflexivity.
Qed.

Lemma qubits_of_agree (h1 h2 : heap) (ls : list loc) :
  heap_agree h1 h2 -> map qubit_view (qubits_of h1 ls) = map qubit_view (qubits_of h2 ls).
Proof.
  intros Hag. induction ls as [|l ls IH]; [reflexivity|]. simpl.
  specialize (Hag l).
  destruct (nth_error h1 l) as [o1|], (nth_error h2 l) as [o2|]; try contradiction;
    [|exact IH].
  destruct o1 as [c1|q1|r1], o2 as [c2|q2|r2]; simpl in Hag; try discriminate;
    try exact IH.
  destruct Hag as (Hn & Hp & _). simpl. unfold qubit_view at 1 3.
  now rewrite Hn, Hp, IH.
Qed.

Lemma link_readouts_agree (cfg : pydict DeviceConfig) (qd : pydict loc) (h0 : heap) :
  forall (ls : list loc) (h h' : heap),
  heap_agree h0 h -> link_readouts cfg qd h ls = Ok h' -> heap_agree h0 h'.
Proof.
  induction ls as [|l ls IH]; intros h h' Hag Hl; simpl in Hl.
  - injection Hl as <-. exact Hag.
  - destruct (nth_error h l) as [[c|q|r]|] eqn:El; try (eapply IH; eassumption).
    destruct (config_readout cfg (tq_name q)) as [rn|e]; [|discriminate]. cbn [bind] in Hl.
    destruct (dict_get qd rn) as [lr|]; [|eapply IH; eassumption].
    destruct (nth_error h lr) as [[c'|q'|r']|]; try discriminate.
    eapply IH; [|exact Hl].
    pose proof (Hag l) as Hagl. rewrite El in Hagl.
    destruct (nth_error h0 l) as [o0|] eqn:E0; [|contradiction].
    apply (heap_agree_set h0 h l o0); [exact Hag|exact E0|].
    destruct o0 as [c0|q0|r0]; simpl in Hagl |- *; try discriminate.
    exact Hagl.
Qed.

Lemma instantiate_devices_qubits (items : pydict DeviceConfig) :
  forall (h : heap) (qd : pydict loc) (h' : heap) (qd' : pydict loc),
  instantiate_devices h qd items = Ok (h', qd') ->
  NoDup (map fst items) ->
  (forall name, In name (map fst items) -> ~ In name (map fst qd)) ->
  (forall l, In l (map snd qd) -> (l < List.length h)%nat) ->
  map qubit_view (qubits_of h' (map snd qd'))
  = map qubit_view (qubits_of h (map snd qd))
    ++ map (fun e => (fst e, get_parameters (snd e))) (filter is_qubit_entry items).
Proof.
  induction items as [|[name c] items IH]; intros h qd h' qd' Hi Hnd Hfresh Hloc.
  - simpl in Hi. injection Hi as <- <-. now rewrite app_nil_r.
  - cbn [instantiate_devices] in Hi. inversion Hnd as [|? ? Hnotin Hnd']; subst.
    assert (Hfr : ~ In name (map fst qd)) by (apply Hfresh; now left).
    assert (Hfresh' : forall n, In n (map fst items) -> ~ In n (map fst qd))
      by (intros n Hn; apply Hfresh; now right).
    cbn [filter].
    destruct (cfg_type c) as [ty|] eqn:Ety; [|discriminate].
    destruct (String.eqb_spec ty "TunableQubit") as [->|Hne1].
    + replace (is_qubit_entry (name, c)) with true
        by (unfold is_qubit_entry; cbn [snd]; now rewrite Ety).
      destruct (new_TunableQubit_eq h name c) as (o1 & o2 & Hnew).
      rewrite Hnew, dict_set_fresh in Hi by exact Hfr.
      rewrite (IH _ _ _ _ Hi Hnd').
      * rewrite map_app, qubits_of_app, qubits_of_extend by exact Hloc. cbn [qubits_of map snd].
        rewrite nth_error_app2 by lia.
        replace (S (S (List.length h)) - List.length h)%nat with 2%nat by lia.
        simpl. rewrite map_app, <- app_assoc. reflexivity.
      * intros n Hn. rewrite map_app. simpl. intros Hin.
        apply in_app_or in Hin as [Hin|[<-|[]]]; [|contradiction].
        exact (Hfresh' n Hn Hin).
      * intros l Hl. rewrite map_app in Hl. cbn [map snd] in Hl. rewrite length_app. simpl.
        apply in_app_or in Hl as [Hl|[<-|[]]]; [specialize (Hloc l Hl); lia|lia].
    + assert (Hb : String.eqb ty "TunableQubit" = false)
        by (apply String.eqb_neq; exact Hne1).
      replace (is_qubit_entry (name, c)) with false
        by (unfold is_qubit_entry; cbn [snd]; now rewrite Ety).
      destruct (String.eqb_spec ty "ReadoutResonator") as [->|Hne2].
      * destruct (new_ReadoutResonator_eq h name c) as (o1 & o2 & rr & Hnew).
        rewrite Hnew, dict_set_fresh in Hi by exact Hfr.
        rewrite (IH _ _ _ _ Hi Hnd').
        -- rewrite map_app, qubits_of_app, qubits_of_extend by exact Hloc. cbn [qubits_of map snd].
           rewrite nth_error_app2 by lia.
           replace (S (S (List.length h)) - List.length h)%nat with 2%nat by lia.
           simpl. now rewrite app_nil_r.
        -- intros n Hn. rewrite map_app. simpl. intros Hin.
           apply in_app_or in Hin as [Hin|[<-|[]]]; [|contradiction].
           exact (Hfresh' n Hn Hin).
        -- intros l Hl. rewrite map_app in Hl. cbn [map snd] in Hl. rewrite length_app. simpl.
           apply in_app_or in Hl as [Hl|[<-|[]]]; [specialize (Hloc l Hl); lia|lia].
      * exact (IH _ _ _ _ Hi Hnd' Hfresh' Hloc).
Qed.

(** ** System.get_instances *)

(** After [System] construction from a configuration (a dict: distinct
    names), [get_instances(TunableQubit)] lists one qubit per [TunableQubit]
    entry, in the order of the configuration, each with the entry's name
    and its [parameters] (or [{}]); entries of other or unknown types give
    none. So the qubit the Rabi experiment and the simulation backend take,
    [get_instances(TunableQubit)[0]], is the first [TunableQubit] entry. *)
Theorem get_instances_config_order (cfg : pydict DeviceConfig) (system : System)
  (Hnd : NoDup (map fst cfg)) (Hload : load_devices cfg = Ok system) :
  map qubit_view (get_qubit_instances system)
  = map (fun e => (fst e, get_parameters (snd e))) (filter is_qubit_entry cfg).
Proof.
  unfold load_devices in Hload.
  destruct (instantiate_devices [] [] cfg) as [[h qd]|e] eqn:Ei; [|discriminate].
  cbn [bind] in Hload.
  destruct (link_readouts cfg qd h (map snd qd)) as [h'|e] eqn:El; [|discriminate].
  cbn [bind] in Hload. injection Hload as <-. unfold get_qubit_instances.
  cbn [sys_heap quantum_devices].
  rewrite <- (qubits_of_agree h h' (map snd qd))
    by exact (link_readouts_agree cfg qd h (map snd qd) h h' (heap_agree_refl h) El).
  rewrite (instantiate_devices_qubits cfg [] [] h qd Ei Hnd); [reflexivity| |].
  - intros n _ [].
  - intros l [].
Qed.

Lemma get_instances_config_order_witness :
  let cfg := [("c0"%string, mkDeviceConfig (Some "Coupler"%string) None None);
              ("q1"%string, mkDeviceConfig (Some "TunableQubit"%string)
                  (Some [("frequency"%string, PyFloat 5.1e9)])
                  (Some [("readout"%string, "r0"%string)]));
              ("r0"%string, mkDeviceConfig (Some "ReadoutResonator"%string) None None);
              ("q0"%string, mkDeviceConfig (Some "TunableQubit"%string) None
                  (Some [("readout"%string, "r0"%string)]))] in
  let system := mkSystem cfg
    [OChannel (mkChannel KXYChannel "q1.xy"); OChannel (mkChannel KZChannel "q1.z");
     OQubit (mkQubit "q1" [("frequency"%string, PyFloat 5.1e9)] 0%nat 1%nat (Some 4%nat));
     OChannel (mkChannel KXYChannel "r0.drive");
     OChannel (mkChannel (KReadoutChannel (PyFloat 1e-6)) "r0.measure");
     OResonator (mkResonator "r0" [] 3%nat 4%nat);
     OChannel (mkChannel KXYChannel "q0.xy"); OChannel (mkChannel KZChannel "q0.z");
     OQubit (mkQubit "q0" [] 6%nat 7%nat (Some 4%nat))]
    [("q1"%string, 2%nat); ("r0"%string, 5%nat); ("q0"%string, 8%nat)] in
  (NoDup (map fst cfg) /\ load_devices cfg = Ok system) /\
  map qubit_view (get_qubit_instances system)
  = [("q1"%string, [("frequency"%string, PyFloat 5.1e9)]); ("q0"%string, [])].
Proof.
  intros cfg system.
  assert (Hnd : NoDup (map fst cfg)).
  { repeat constructor; simpl; intuition discriminate. }
  assert (Hl : load_devices cfg = Ok system) by reflexivity.
  split; [split; [exact Hnd|exact Hl]|].
  exact (get_instances_config_order cfg system Hnd Hl).
Defined.

(** ** utils/converter.py: the two-sample floor *)

Lemma py_int_lt_3 (x : R) : x < 3 -> (py_int x <= 2)%Z.
Proof.
  intros Hx. unfold py_int. destruct (base_Int_part x) as [B1 B2].
  destruct (Rle_dec 0 x) as [Hp|Hn].
  - assert (Hlt : (Int_part x < 3)%Z) by (apply lt_IZR; simpl; lra). lia.
  - destruct (base_Int_part (- x)) as [C1 C2].
    assert (Hge : (-1 < Int_part (- x))%Z) by (apply lt_IZR; simpl; lra). lia.
Qed.

(** Whenever [duration * sample_rate < 3], zero and negative durations
    included, the converter samples exactly two points, at times [0] and
    [duration / 2]. *)
Theorem pulse_to_waveform_two_samples (op : PulseOperation) (sample_rate : R)
  (Hsmall : duration op * sample_rate < 3) :
  fst (pulse_to_waveform_rate op sample_rate) = [0; duration op / 2] /\
  List.length (snd (pulse_to_waveform_rate op sample_rate)) = 2%nat.
Proof.
  assert (Hn : n_points_of op sample_rate = 2%nat).
  { unfold n_points_of. pose proof (py_int_lt_3 _ Hsmall).
    replace (Z.max (py_int (duration op * sample_rate)) 2) with 2%Z by lia.
    reflexivity. }
  split.
  - rewrite pulse_to_waveform_time, Hn. unfold linspace_open. simpl.
    f_equal; [ring|]. f_equal. field.
  - now rewrite pulse_to_waveform_env_length, Hn.
Qed.

Lemma pulse_to_waveform_two_samples_witness :
  let op := mkPulse "q0.xy" (-10e-9) 0.5 0 0 "gaussian" in
  duration op * 1e9 < 3 /\
  fst (pulse_to_waveform_rate op 1e9) = [0; duration op / 2] /\
  List.length (snd (pulse_to_waveform_rate op 1e9)) = 2%nat.
Proof.
  intros op. assert (H : duration op * 1e9 < 3) by (unfold op; simpl; lra).
  split; [exact H|]. exact (pulse_to_waveform_two_samples op 1e9 H).
Defined.

(** ** PlottingBackend.execute: measurements *)

(** A measurement of integration time [T] with [z <= T * 1e9 < z + 1],
    [z >= 0], is drawn on the readout axis as a dashed flat trace at [0.2]
    with [z] samples over the closed interval [[0, T]]. *)
Theorem plotting_measure (path : string) (itime : R) (z : Z)
  (Hz0 : (0 <= z)%Z) (Hz : IZR z <= itime * 1e9 < IZR z + 1) :
  plotting_execute [OpMeasure path itime]
  = Ok [mkPlot 2 (map (fun x => x + 0) (linspace_closed itime (Z.to_nat z)))
               (repeat 0.2 (Z.to_nat z)) path true].
Proof.
  unfold plotting_execute. cbn [plot_operations].
  unfold generate_waveform, generate_waveform_rate, default_sample_rate.
  cbn [duration shape amplitude].
  rewrite (py_int_nonneg _ z Hz0 Hz).
  replace (z <? 0)%Z with false by (symmetry; apply Z.ltb_ge; exact Hz0).
  reflexivity.
Qed.

Lemma plotting_measure_witness :
  ((0 <= 1000)%Z /\ IZR 1000 <= 1e-6 * 1e9 < IZR 1000 + 1) /\
  plotting_execute [OpMeasure "r0.measure" 1e-6]
  = Ok [mkPlot 2 (map (fun x => x + 0) (linspace_closed 1e-6 (Z.to_nat 1000)))
               (repeat 0.2 (Z.to_nat 1000)) "r0.measure" true].
Proof.
  assert (H0 : (0 <= 1000)%Z) by lia.
  assert (H1 : IZR 1000 <= 1e-6 * 1e9 < IZR 1000 + 1) by lra.
  split; [split; [exact H0|exact H1]|].
  exact (plotting_measure "r0.measure" 1e-6 1000 H0 H1).
Defined.

(** ** physics_simulator.py: the frequency parameter *)

(** The qubit frequency is read and converted although it is not used
    afterwards: an empty list or tuple raises [IndexError], [None] or a list
    starting with [None] raises [TypeError], before any check on the
    arrays; an absent [frequency] behaves as an empty parameter dict. *)
Theorem simulate_frequency_errors (mesolve_expect : (R -> R) -> list R -> list R)
  (env t : list R) (p : pydict PyVal) :
  (dict_get p "frequency" = Some (PyList []) ->
     simulate_qubit_evolution mesolve_expect env t p = Err IndexError) /\
  (dict_get p "frequency" = Some (PyTuple []) ->
     simulate_qubit_evolution mesolve_expect env t p = Err IndexError) /\
  (dict_get p "frequency" = Some PyNone ->
     simulate_qubit_evolution mesolve_expect env t p = Err TypeError) /\
  (forall l, dict_get p "frequency" = Some (PyList (PyNone :: l)) ->
     simulate_qubit_evolution mesolve_expect env t p = Err TypeError) /\
  (dict_get p "frequency" = None ->
     simulate_qubit_evolution mesolve_expect env t p
     = simulate_qubit_evolution mesolve_expect env t []).
Proof.
  unfold simulate_qubit_evolution at 1 2 3 4.
  unfold parse_frequency at 1 2 3 4.
  split; [intros H; now rewrite H|].
  split; [intros H; now rewrite H|].
  split; [intros H; now rewrite H|].
  split; [intros l H; now rewrite H|].
  intros H. apply (simulate_after_parse _ _ _ _ 5.0e9).
  unfold parse_frequency. now rewrite H.
Qed.

(** ** QuTiPSimulationBackend.execute with the exact solver *)

Lemma simulate_exact_bounds (env t : list R) (p : pydict PyVal) (r : R) :
  simulate_qubit_evolution mesolve_exact env t p = Ok r -> 0 <= r <= 1.
Proof.
  unfold simulate_qubit_evolution.
  destruct (parse_frequency p); [|discriminate]. cbn [bind].
  destruct (negb _); [discriminate|].
  destruct (np_interp _ _ _); [cbn [bind]|discriminate].
  destruct t as [|t0 ts]; [discriminate|].
  unfold mesolve_exact, py_last. rewrite evolve_last. intros H. injection H as <-.
  apply excited_pop_bounds. rewrite final_state_norm2.
  unfold norm2, ground. simpl. ring.
Qed.

Lemma sim_execute_exact_pulse (system : System) (q : TunableQubit)
  (rest : list TunableQubit) (p : PulseOperation) (post : list Operation) :
  get_qubit_instances system = q :: rest ->
  params_well_formed (tq_parameters q) ->
  identifies_xy (channel_path p) -> 0 < duration p ->
  sim_execute mesolve_exact system (OpPulse p :: post)
  = Ok (sin (pulse_area (fst (pulse_to_waveform p))
                        (angular_envelope (snd (pulse_to_waveform p))) / 2) ^ 2).
Proof.
  intros Hq Hwf Hp Hd. unfold sim_execute. cbn [first_xy_pulse].
  apply str_in_spec in Hp. rewrite Hp.
  assert (Hn : (2 <= n_points_of p default_sample_rate)%nat)
    by (unfold n_points_of; lia).
  assert (Hl : List.length (fst (pulse_to_waveform p))
               = List.length (snd (pulse_to_waveform p))).
  { unfold pulse_to_waveform.
    now rewrite pulse_to_waveform_env_length, pulse_to_waveform_time,
      linspace_open_length. }
  assert (Hs : StronglySorted Rlt (fst (pulse_to_waveform p))).
  { unfold pulse_to_waveform. rewrite pulse_to_waveform_time.
    now apply linspace_open_sorted. }
  assert (Hne : fst (pulse_to_waveform p) <> []).
  { intros E. apply (f_equal (@List.length R)) in E.
    unfold pulse_to_waveform in E.
    rewrite pulse_to_waveform_time, linspace_open_length in E. simpl in E. lia. }
  revert Hl Hs Hne. destruct (pulse_to_waveform p) as [t env]. cbn [fst snd].
  intros Hl Hs Hne. rewrite Hq. now apply simulate_exact_area.
Qed.

(** Whatever the sequence, the simulation backend with the exact solver
    returns, when it returns, a probability in [[0, 1]]. *)
Theorem sim_execute_exact_probability (system : System) (ops : list Operation) (r : R)
  (H : sim_execute mesolve_exact system ops = Ok r) :
  0 <= r <= 1.
Proof.
  revert H. unfold sim_execute.
  destruct (first_xy_pulse ops) as [p|]; [|intros H; injection H as <-; lra].
  destruct (pulse_to_waveform p) as [t env].
  destruct (get_qubit_instances system) as [|q _]; [discriminate|].
  apply simulate_exact_bounds.
Qed.

Lemma sim_execute_exact_probability_witness :
  let q := mkQubit "q0" [("frequency"%string, PyFloat 5e9)] 0%nat 1%nat (Some 4%nat) in
  let system := mkSystem []
    [OChannel (mkChannel KXYChannel "q0.xy"); OChannel (mkChannel KZChannel "q0.z");
     OQubit q; OChannel (mkChannel KXYChannel "r0.drive");
     OChannel (mkChannel (KReadoutChannel (PyFloat 2e-6)) "r0.measure");
     OResonator (mkResonator "r0" [("integration_time"%string, PyFloat 2e-6)] 3%nat 4%nat)]
    [("q0"%string, 2%nat); ("r0"%string, 5%nat)] in
  let p := xy_play_pulse "q0.xy" 0.5 40e-9 in
  let ops := [OpPulse p; OpMeasure "r0.measure" 2e-6] in
  let r := sin (pulse_area (fst (pulse_to_waveform p))
                           (angular_envelope (snd (pulse_to_waveform p))) / 2) ^ 2 in
  sim_execute mesolve_exact system ops = Ok r /\ 0 <= r <= 1.
Proof.
  intros q system p ops r.
  assert (E : sim_execute mesolve_exact system ops = Ok r).
  { apply (sim_execute_exact_pulse system q [] p).
    - reflexivity.
    - left. exists 5e9. reflexivity.
    - exists "q0."%string, EmptyString. reflexivity.
    - cbn [p xy_play_pulse duration]. lra. }
  split; [exact E|].
  exact (sim_execute_exact_probability system ops r E).
Defined.
